(** * Devfile parser: reference resolution and sync-folder computation

    A shallow embedding of [pkg/devfile/parser] (parseDevfile, Parse,
    ParseRawDevfile, ParseFromURL, ParseFromData, parseParentAndPlugin) and
    of [addSyncFolder] from the generator package, with the properties the
    specification states about them. *)

From stdpp Require Import base decidable option list strings gmap.
From Stdlib Require Import Ascii Lia.

Local Open Scope string_scope.
Local Open Scope list_scope.

(** Go's [error] values.  [errors.Wrapf err msg] prints as
    [msg ++ ": " ++ err]. *)
Definition Error : Type := string.

Definition Wrapf (err : Error) (msg : string) : Error := msg +:+ ": " +:+ err.

(** ** Data model (github.com/devfile/api, v1alpha2)

    The structs live in the API library; the fields below are the ones the
    parser and the generator read.  Go's [reflect.DeepEqual] against a zero
    value becomes a decidable equality with the [zero] of each record. *)

Module ContainerComponent.
Record t : Type := { Image : string; MemoryLimit : string }.
#[global] Instance eq_dec : EqDecision t.
Proof. solve_decision. Defined.
End ContainerComponent.

Module VolumeComponent.
Record t : Type := { Size : string }.
#[global] Instance eq_dec : EqDecision t.
Proof. solve_decision. Defined.
End VolumeComponent.

Module ExecCommand.
Record t : Type := { CommandLine : string; Component : string }.
#[global] Instance eq_dec : EqDecision t.
Proof. solve_decision. Defined.
End ExecCommand.

Module Command.
Record t : Type := { Id : string; Exec : option ExecCommand.t }.
#[global] Instance eq_dec : EqDecision t.
Proof. solve_decision. Defined.
End Command.

Module Project.
Record t : Type := { Name : string; ClonePath : string; Remote : string }.
#[global] Instance eq_dec : EqDecision t.
Proof. solve_decision. Defined.
End Project.

(** An override of a component never carries a plugin reference of its
    own: it patches the container or volume of the element it names. *)
Module ComponentOverride.
Record t : Type :=
  { Name : string;
    Container : option ContainerComponent.t;
    Volume : option VolumeComponent.t }.
#[global] Instance eq_dec : EqDecision t.
Proof. solve_decision. Defined.
End ComponentOverride.

(** [v1.ParentOverrides] and [v1.PluginOverrides], both passed to the
    override function as [Overrides]. *)
Module Overrides.
Record t : Type :=
  { Components : list ComponentOverride.t;
    Commands : list Command.t;
    Projects : list Project.t }.
#[global] Instance eq_dec : EqDecision t.
Proof. solve_decision. Defined.
Definition zero : t := {| Components := []; Commands := []; Projects := [] |}.
End Overrides.

Module PluginComponent.
Record t : Type :=
  { Uri : string;
    Id : string;
    RegistryUrl : string;
    PluginOverrides : Overrides.t }.
#[global] Instance eq_dec : EqDecision t.
Proof. solve_decision. Defined.
Definition zero : t :=
  {| Uri := ""; Id := ""; RegistryUrl := ""; PluginOverrides := Overrides.zero |}.
End PluginComponent.

Module Parent.
Record t : Type :=
  { Uri : string;
    Id : string;
    RegistryUrl : string;
    ParentOverrides : Overrides.t }.
#[global] Instance eq_dec : EqDecision t.
Proof. solve_decision. Defined.
Definition zero : t :=
  {| Uri := ""; Id := ""; RegistryUrl := ""; ParentOverrides := Overrides.zero |}.
End Parent.

(** A component is a struct of optional, mutually exclusive variants; a
    non-nil [Plugin] makes it a Plugin-variant component. *)
Module Component.
Record t : Type :=
  { Name : string;
    Container : option ContainerComponent.t;
    Plugin : option PluginComponent.t;
    Volume : option VolumeComponent.t }.
#[global] Instance eq_dec : EqDecision t.
Proof. solve_decision. Defined.
End Component.

(** [v1.DevWorkspaceTemplateSpecContent]: the mergeable workspace content. *)
Module Content.
Record t : Type :=
  { Components : list Component.t;
    Commands : list Command.t;
    Projects : list Project.t }.
#[global] Instance eq_dec : EqDecision t.
Proof. solve_decision. Defined.
Definition zero : t := {| Components := []; Commands := []; Projects := [] |}.
End Content.

(** The versioned document behind the [data.DevfileData] interface, with
    its accessors. *)
Module DevfileData.
Record t : Type :=
  { SchemaVersion : string;
    Parent : option Parent.t;
    Workspace : Content.t }.
#[global] Instance eq_dec : EqDecision t.
Proof. solve_decision. Defined.

Definition GetParent (d : t) : option Parent.t := Parent d.

Definition SetParent (parent : option Parent.t) (d : t) : t :=
  {| SchemaVersion := SchemaVersion d; Parent := parent; Workspace := Workspace d |}.

Definition GetDevfileWorkspace (d : t) : Content.t := Workspace d.

Definition SetDevfileWorkspace (content : Content.t) (d : t) : t :=
  {| SchemaVersion := SchemaVersion d; Parent := Parent d; Workspace := content |}.

(** Modelled from the spec: the accessor of the data package is not part
    of the sources at hand; the resolver visits "every component in
    doc.components", which is what the empty [DevfileOptions] filter
    selects, and no error arises. *)
Definition GetComponents (d : t) : list Component.t * option Error :=
  (Content.Components (Workspace d), None).
End DevfileData.

(** ** Outcomes of a run

    A call either returns (with the list of URIs it fetched, in order),
    panics (a method called on a nil interface), or exhausts the fuel that
    bounds the depth of the recursion through [ParseFromURL]. *)
Inductive Run (A : Type) : Type :=
| Returns (a : A) (fetched : list string)
| Panics
| OutOfFuel.
Arguments Returns {A} a fetched.
Arguments Panics {A}.
Arguments OutOfFuel {A}.

Definition ret {A} (a : A) : Run A := Returns a [].

Definition bind {A B} (m : Run A) (k : A -> Run B) : Run B :=
  match m with
  | Returns a l1 =>
      match k a with
      | Returns b l2 => Returns b (l1 ++ l2)
      | Panics => Panics
      | OutOfFuel => OutOfFuel
      end
  | Panics => Panics
  | OutOfFuel => OutOfFuel
  end.

#[global] Instance Run_ret : MRet Run := @ret.
#[global] Instance Run_bind : MBind Run := fun A B k m => bind m k.

(** The fetch of a URI, recorded. *)
Definition fetching (url : string) : Run unit := Returns tt [url].

(** A method call through the [data.DevfileData] interface: a nil receiver
    panics. *)
Definition call {A} (recv : option DevfileData.t) (method : DevfileData.t -> A) : Run A :=
  match recv with
  | Some p => ret (method p)
  | None => Panics
  end.

(** Results of the library functions whose value is dropped on error. *)
Inductive Result (A : Type) : Type :=
| OK (a : A)
| Fail (err : Error).
Arguments OK {A} a.
Arguments Fail {A} err.

(** ** Collaborators

    The loading context ([devfileCtx]), the decoder ([data.NewDevfileData],
    [json.Unmarshal]) and the override and merge functions of the API
    library are outside the parser; it is verified against their
    interfaces. *)
Class ContextLoader : Type :=
  { DevfileCtx : Type;
    zeroCtx : DevfileCtx;
    NewDevfileCtx : string -> DevfileCtx;
    NewURLDevfileCtx : string -> DevfileCtx;
    Populate : DevfileCtx -> DevfileCtx * option Error;
    PopulateFromURL : DevfileCtx -> DevfileCtx * option Error;
    PopulateFromRaw : DevfileCtx -> DevfileCtx * option Error;
    SetDevfileContentFromBytes : list Byte.byte -> DevfileCtx -> DevfileCtx * option Error;
    Validate : DevfileCtx -> option Error;
    GetApiVersion : DevfileCtx -> string;
    GetDevfileContent : DevfileCtx -> list Byte.byte }.

Class DocumentDecoder : Type :=
  { NewDevfileData : string -> option DevfileData.t * option Error;
    Unmarshal : list Byte.byte -> option DevfileData.t -> option DevfileData.t * option Error }.

Class Overriding : Type :=
  { OverrideDevWorkspaceTemplateSpec : Content.t -> Overrides.t -> Result Content.t;
    MergeDevWorkspaceTemplateSpec : Content.t -> Content.t -> list Content.t -> Result Content.t }.

(** ** The parser *)
Section Parser.
Context {loader : ContextLoader} {decoder : DocumentDecoder} {api : Overriding}.

Record DevfileObj : Type := { Ctx : DevfileCtx; Data : option DevfileData.t }.

(** [DevfileObj{}] *)
Definition zeroDevfileObj : DevfileObj := {| Ctx := zeroCtx; Data := None |}.

Definition withCtx (d : DevfileObj) (ctx : DevfileCtx) : DevfileObj :=
  {| Ctx := ctx; Data := Data d |}.

Definition withData (d : DevfileObj) (data : option DevfileData.t) : DevfileObj :=
  {| Ctx := Ctx d; Data := data |}.

(** parseDevfile, lines 22-38: validate the context, create the data
    object, decode the content into it. *)
Definition decode (d : DevfileObj) : DevfileObj * option Error :=
  match Validate (Ctx d) with
  | Some err => (d, Some err)
  | None =>
      let '(data, err) := NewDevfileData (GetApiVersion (Ctx d)) in
      let d := withData d data in
      match err with
      | Some err => (d, Some err)
      | None =>
          let '(data, err) := Unmarshal (GetDevfileContent (Ctx d)) (Data d) in
          let d := withData d data in
          match err with
          | Some err => (d, Some (Wrapf err "failed to decode devfile content"))
          | None => (d, None)
          end
      end
  end.

Section Resolver.
(** The recursive entry point, tied below by [ParseFromURL]. *)
Variable ParseFromURL : string -> Run (DevfileObj * option Error).

(** parseParentAndPlugin, lines 109-131. *)
Definition flattenParent (parent : option Parent.t) : Run (Content.t * option Error) :=
  let flattenedParent := Content.zero in
  match parent with
  | Some parent =>
      if bool_decide (parent <> Parent.zero) && bool_decide (Parent.Uri parent <> "") then
        '(parentData, err) ← ParseFromURL (Parent.Uri parent);
        match err with
        | Some err => ret (flattenedParent, Some err)
        | None =>
            parentWorkspaceContent ← call (Data parentData) DevfileData.GetDevfileWorkspace;
            if bool_decide (Parent.ParentOverrides parent <> Overrides.zero) then
              match OverrideDevWorkspaceTemplateSpec parentWorkspaceContent
                      (Parent.ParentOverrides parent) with
              | Fail err => ret (flattenedParent, Some err)
              | OK flattenedParent => ret (flattenedParent, None)
              end
            else ret (parentWorkspaceContent, None)
        end
      else ret (flattenedParent, None)
  | None => ret (flattenedParent, None)
  end.

(** parseParentAndPlugin, lines 139-155: one plugin component. *)
Definition flattenPlugin (plugin : PluginComponent.t) : Run (Content.t * option Error) :=
  '(pluginData, err) ←
    (if bool_decide (PluginComponent.Uri plugin <> "")
     then ParseFromURL (PluginComponent.Uri plugin)
     else ret (zeroDevfileObj, None));
  match err with
  | Some err => ret (Content.zero, Some err)
  | None =>
      pluginWorkspaceContent ← call (Data pluginData) DevfileData.GetDevfileWorkspace;
      if bool_decide (PluginComponent.PluginOverrides plugin <> Overrides.zero) then
        match OverrideDevWorkspaceTemplateSpec pluginWorkspaceContent
                (PluginComponent.PluginOverrides plugin) with
        | Fail err => ret (Content.zero, Some err)
        | OK result => ret (result, None)
        end
      else ret (pluginWorkspaceContent, None)
  end.

(** [component.Plugin != nil && !reflect.DeepEqual(component.Plugin, &v1.PluginComponent{})] *)
Definition pluginOf (component : Component.t) : option PluginComponent.t :=
  match Component.Plugin component with
  | Some plugin => if bool_decide (plugin <> PluginComponent.zero) then Some plugin else None
  | None => None
  end.

(** parseParentAndPlugin, lines 137-157: the loop over the components. *)
Fixpoint flattenPlugins (components : list Component.t) (plugins : list Content.t)
  : Run (list Content.t * option Error) :=
  match components with
  | [] => ret (plugins, None)
  | component :: components =>
      match pluginOf component with
      | Some plugin =>
          '(result, err) ← flattenPlugin plugin;
          match err with
          | Some err => ret (plugins, Some err)
          | None => flattenPlugins components (plugins ++ [result])
          end
      | None => flattenPlugins components plugins
      end
  end.

(** parseParentAndPlugin.  The document behind [d.Data] is mutated in
    place; the function returns it as the caller sees it afterwards. *)
Definition parseParentAndPlugin_with (d : DevfileObj) : Run (DevfileObj * option Error) :=
  parent ← call (Data d) DevfileData.GetParent;
  '(flattenedParent, err) ← flattenParent parent;
  match err with
  | Some err => ret (d, Some err)
  | None =>
      '(components, err) ← call (Data d) DevfileData.GetComponents;
      match err with
      | Some err => ret (d, Some err)
      | None =>
          '(plugins, err) ← flattenPlugins components [];
          match err with
          | Some err => ret (d, Some err)
          | None =>
              local ← call (Data d) DevfileData.GetDevfileWorkspace;
              match MergeDevWorkspaceTemplateSpec local flattenedParent plugins with
              | Fail err => ret (d, Some err)
              | OK mergedContent =>
                  data ← call (Data d) (DevfileData.SetDevfileWorkspace mergedContent);
                  let data := DevfileData.SetParent None data in
                  ret (withData d (Some data), None)
              end
          end
      end
  end.

(** parseDevfile *)
Definition parseDevfile_with (d : DevfileObj) (flattenedDevfile : bool)
  : Run (DevfileObj * option Error) :=
  let '(d, err) := decode d in
  match err with
  | Some err => ret (d, Some err)
  | None =>
      if flattenedDevfile then
        '(d, err) ← parseParentAndPlugin_with d;
        match err with
        | Some err => ret (zeroDevfileObj, Some err)
        | None => ret (d, None)
        end
      else ret (d, None)
  end.
End Resolver.

(** ParseFromURL; each level of fuel allows one more level of parent or
    plugin documents. *)
Fixpoint ParseFromURL (fuel : nat) (url : string) : Run (DevfileObj * option Error) :=
  match fuel with
  | O => OutOfFuel
  | S fuel =>
      let d := withCtx zeroDevfileObj (NewURLDevfileCtx url) in
      _ ← fetching url;
      let '(ctx, err) := PopulateFromURL (Ctx d) in
      let d := withCtx d ctx in
      match err with
      | Some err => ret (d, Some err)
      | None => parseDevfile_with (ParseFromURL fuel) d true
      end
  end.

Definition parseParentAndPlugin (fuel : nat) : DevfileObj -> Run (DevfileObj * option Error) :=
  parseParentAndPlugin_with (ParseFromURL fuel).

Definition parseDevfile (fuel : nat) : DevfileObj -> bool -> Run (DevfileObj * option Error) :=
  parseDevfile_with (ParseFromURL fuel).

(** Parse *)
Definition Parse (fuel : nat) (path : string) : Run (DevfileObj * option Error) :=
  let d := withCtx zeroDevfileObj (NewDevfileCtx path) in
  let '(ctx, err) := Populate (Ctx d) in
  let d := withCtx d ctx in
  match err with
  | Some err => ret (d, Some err)
  | None => parseDevfile fuel d true
  end.

(** ParseRawDevfile *)
Definition ParseRawDevfile (fuel : nat) (path : string) : Run (DevfileObj * option Error) :=
  let d := withCtx zeroDevfileObj (NewDevfileCtx path) in
  let '(ctx, err) := Populate (Ctx d) in
  let d := withCtx d ctx in
  match err with
  | Some err => ret (d, Some err)
  | None => parseDevfile fuel d false
  end.

(** ParseFromData *)
Definition ParseFromData (fuel : nat) (data : list Byte.byte) : Run (DevfileObj * option Error) :=
  let d := withCtx zeroDevfileObj zeroCtx in
  let '(ctx, err) := SetDevfileContentFromBytes data (Ctx d) in
  let d := withCtx d ctx in
  match err with
  | Some err => ret (d, Some (Wrapf err "failed to set devfile content from bytes"))
  | None =>
      let '(ctx, err) := PopulateFromRaw (Ctx d) in
      let d := withCtx d ctx in
      match err with
      | Some err => ret (d, Some err)
      | None => parseDevfile fuel d true
      end
  end.
End Parser.

(** ** The override and merge functions, after their contracts

    The functions of the API library ([apiOverride]) are not part of the
    sources at hand. *)
Module SpecApi.
Section Keyed.
Context {A : Type} `{EqDecision A} (key : A -> string).

Definition hasKey (k : string) (l : list A) : bool :=
  existsb (fun y => bool_decide (key y = k)) l.

(** An element of [l] with the key of [x] and another content. *)
Definition clashes (x : A) (l : list A) : bool :=
  existsb (fun y => bool_decide (key y = key x) && bool_decide (y <> x)) l.

Definition conflictError (k : string) : Error :=
  "conflicting definitions of " +:+ k.

(** The elements of [layer] to add to the [inherited] ones: an element
    whose key is new is added, an exact duplicate is dropped, a clash
    is an error naming the key. *)
Fixpoint fresh (inherited layer : list A) : Result (list A) :=
  match layer with
  | [] => OK []
  | x :: layer =>
      if clashes x inherited then Fail (conflictError (key x))
      else
        match fresh inherited layer with
        | Fail err => Fail err
        | OK rest => OK (if hasKey (key x) inherited then rest else x :: rest)
        end
  end.

Fixpoint mergeLayers (merged : list A) (layers : list (list A)) : Result (list A) :=
  match layers with
  | [] => OK merged
  | layer :: layers =>
      match fresh merged layer with
      | Fail err => Fail err
      | OK new => mergeLayers (merged ++ new) layers
      end
  end.

(** Replace the element with the key of [patch], or fail naming the
    key when there is none. *)
Fixpoint replaceKeyed (patchKey : string) (apply : A -> A) (l : list A) : Result (list A) :=
  match l with
  | [] => Fail ("override of a missing element " +:+ patchKey)
  | x :: l =>
      if bool_decide (key x = patchKey) then OK (apply x :: l)
      else
        match replaceKeyed patchKey apply l with
        | Fail err => Fail err
        | OK l => OK (x :: l)
        end
  end.
End Keyed.

Definition ordinary (c : Component.t) : bool :=
  match Component.Plugin c with
  | None => true
  | Some _ => false
  end.

(** The layers in order of precedence, the local one last. *)
Definition componentLayers (main parent : Content.t) (plugins : list Content.t)
  : list (list Component.t) :=
  (Content.Components parent :: map Content.Components plugins)
    ++ [Content.Components main].

(** The layers that make the result: the local one without its plugin
    components, which the plugin layers stand for. *)
Definition expandedLayers (main parent : Content.t) (plugins : list Content.t)
  : list (list Component.t) :=
  (Content.Components parent :: map Content.Components plugins)
    ++ [filter (fun c => ordinary c = true) (Content.Components main)].

(** The components of the merge: every name collision among all the
    layers, the local plugin components included, is checked first; the
    result is made of the expanded layers. *)
Definition mergeComponents (main parent : Content.t) (plugins : list Content.t)
  : Result (list Component.t) :=
  match mergeLayers Component.Name [] (componentLayers main parent plugins) with
  | Fail err => Fail err
  | OK _ => mergeLayers Component.Name [] (expandedLayers main parent plugins)
  end.

Definition commandLayers (main parent : Content.t) (plugins : list Content.t)
  : list (list Command.t) :=
  (Content.Commands parent :: map Content.Commands plugins) ++ [Content.Commands main].

Definition projectLayers (main parent : Content.t) (plugins : list Content.t)
  : list (list Project.t) :=
  (Content.Projects parent :: map Content.Projects plugins) ++ [Content.Projects main].

(** Modelled from the spec: [MergeDevWorkspaceTemplateSpec] is not part of
    the sources at hand.  "merge(base, layers...)": the parent layer,
    the plugin layers and the local content are combined, "the caller's
    own (local) content is considered the most specific"; "exact
    duplicates (identical content) are not an error; genuinely
    conflicting duplicates (same name, different content) must be
    surfaced as a merge error", for every name and every pair of layers;
    a parent yielding {a}, a plugin yielding {b} and a local {c} merge to
    {a, b, c}, the local plugin component being replaced by what the
    plugin yields. *)
Definition Merge (main parent : Content.t) (plugins : list Content.t) : Result Content.t :=
  match mergeComponents main parent plugins with
  | Fail err => Fail err
  | OK components =>
      match mergeLayers Command.Id [] (commandLayers main parent plugins) with
      | Fail err => Fail err
      | OK commands =>
          match mergeLayers Project.Name [] (projectLayers main parent plugins) with
          | Fail err => Fail err
          | OK projects =>
              OK {| Content.Components := components;
                    Content.Commands := commands;
                    Content.Projects := projects |}
          end
      end
  end.

Definition patchComponent (o : ComponentOverride.t) (c : Component.t) : Component.t :=
  {| Component.Name := Component.Name c;
     Component.Container :=
       match ComponentOverride.Container o with
       | Some new => Some new
       | None => Component.Container c
       end;
     Component.Plugin := Component.Plugin c;
     Component.Volume :=
       match ComponentOverride.Volume o with
       | Some new => Some new
       | None => Component.Volume c
       end |}.

Fixpoint overrideAll {A P : Type} (step : P -> list A -> Result (list A))
  (patches : list P) (l : list A) : Result (list A) :=
  match patches with
  | [] => OK l
  | p :: patches =>
      match step p l with
      | Fail err => Fail err
      | OK l => overrideAll step patches l
      end
  end.

(** Modelled from the spec: [OverrideDevWorkspaceTemplateSpec] is not part
    of the sources at hand.  "Returns a deep copy of content with each
    element named in overrides replaced according to the patch; returns
    an error naming the first unmatched override key." *)
Definition Override (content : Content.t) (overrides : Overrides.t) : Result Content.t :=
  match overrideAll
          (fun o => replaceKeyed Component.Name (ComponentOverride.Name o) (patchComponent o))
          (Overrides.Components overrides) (Content.Components content) with
  | Fail err => Fail err
  | OK components =>
      match overrideAll (fun o => replaceKeyed Command.Id (Command.Id o) (fun _ => o))
              (Overrides.Commands overrides) (Content.Commands content) with
      | Fail err => Fail err
      | OK commands =>
          match overrideAll (fun o => replaceKeyed Project.Name (Project.Name o) (fun _ => o))
                  (Overrides.Projects overrides) (Content.Projects content) with
          | Fail err => Fail err
          | OK projects =>
              OK {| Content.Components := components;
                    Content.Commands := commands;
                    Content.Projects := projects |}
          end
      end
  end.

Definition api : Overriding :=
  {| OverrideDevWorkspaceTemplateSpec := Override;
     MergeDevWorkspaceTemplateSpec := Merge |}.
End SpecApi.

(** ** The generator: sync folder of a container *)
Module Generator.
(** Go's [strings] and [path/filepath] (Unix separators). *)
Definition HasPrefix (s pre : string) : bool := String.prefix pre s.

Fixpoint Contains (s substr : string) : bool :=
  String.prefix substr s ||
  match s with
  | EmptyString => false
  | String _ s => Contains s substr
  end.

Definition Separator : ascii := "/"%char.

(** The elements of a path between its separators. *)
Fixpoint splitPath (cur : string) (path : string) : list string :=
  match path with
  | EmptyString => [String.rev cur]
  | String c path =>
      if Ascii.eqb c Separator then String.rev cur :: splitPath "" path
      else splitPath (String c cur) path
  end.

(** [filepath.Clean], one element at a time; [out] holds the elements
    written so far, last first.  An empty element and [.] are dropped;
    [..] removes the last ordinary element, is dropped at the root, and
    is kept in a relative path that has nothing left to remove. *)
Fixpoint cleanElems (rooted : bool) (out : list string) (elems : list string) : list string :=
  match elems with
  | [] => rev out
  | e :: elems =>
      if bool_decide (e = "") || bool_decide (e = ".") then cleanElems rooted out elems
      else if bool_decide (e = "..") then
        match out with
        | top :: below =>
            if bool_decide (top = "..") then cleanElems rooted (e :: out) elems
            else cleanElems rooted below elems
        | [] => if rooted then cleanElems rooted out elems else cleanElems rooted (e :: out) elems
        end
      else cleanElems rooted (e :: out) elems
  end.

Fixpoint joinWith (sep : string) (elems : list string) : string :=
  match elems with
  | [] => ""
  | [e] => e
  | e :: elems => e +:+ sep +:+ joinWith sep elems
  end.

Definition Clean (path : string) : string :=
  match path with
  | EmptyString => "."
  | String c _ =>
      let rooted := Ascii.eqb c Separator in
      let out := joinWith "/" (cleanElems rooted [] (splitPath "" path)) in
      if rooted then "/" +:+ out
      else if bool_decide (out = "") then "." else out
  end.

(** [filepath.Join]: the elements from the first non-empty one on, joined
    by the separator and cleaned; the empty string when all are empty. *)
Fixpoint Join (elem : list string) : string :=
  match elem with
  | [] => ""
  | e :: rest => if bool_decide (e = "") then Join rest else Clean (joinWith "/" elem)
  end.

(** [filepath.ToSlash] where the separator is the slash. *)
Definition ToSlash (path : string) : string := path.

Module EnvVar.
Record t : Type := { Name : string; Value : string }.
End EnvVar.

Module Container.
Record t : Type := { Name : string; Image : string; Env : list EnvVar.t }.
Definition appendEnv (container : t) (v : EnvVar.t) : t :=
  {| Name := Name container; Image := Image container; Env := Env container ++ [v] |}.
End Container.

Section AddSyncFolder.
(** The name of the environment variable, a constant of the package. *)
Variable EnvProjectsSrc : string.

(** The double quote character. *)
Definition quote : ascii := ascii_of_nat 34.

Definition relativePathError (project : Project.t) : Error :=
  "the clonePath " +:+ Project.ClonePath project +:+ " in the devfile project "
    +:+ Project.Name project +:+ " must be a relative path".

Definition escapePathError (project : Project.t) : Error :=
  "the clonePath " +:+ Project.ClonePath project +:+ " in the devfile project "
    +:+ Project.Name project
    +:+ " cannot escape the value defined by $PROJECTS_ROOT. Please avoid using "
    +:+ String quote ".." +:+ String quote " in clonePath".

(** The folder computed by addSyncFolder, or its error. *)
Definition syncFolder (sourceVolumePath : string) (projects : list Project.t)
  : Result string :=
  match projects with
  | [] => OK sourceVolumePath
  | project :: _ =>
      let syncFolder := ToSlash (Join [sourceVolumePath; Project.Name project]) in
      if bool_decide (Project.ClonePath project <> "") then
        if HasPrefix (Project.ClonePath project) "/" then Fail (relativePathError project)
        else if Contains (Project.ClonePath project) ".." then Fail (escapePathError project)
        else OK (ToSlash (Join [sourceVolumePath; Project.ClonePath project]))
      else OK syncFolder
  end.

(** addSyncFolder: the container as it is after the call, and the
    error. *)
Definition addSyncFolder (container : Container.t) (sourceVolumePath : string)
  (projects : list Project.t) : Container.t * option Error :=
  match syncFolder sourceVolumePath projects with
  | Fail err => (container, Some err)
  | OK syncFolder =>
      (Container.appendEnv container
         {| EnvVar.Name := EnvProjectsSrc; EnvVar.Value := syncFolder |}, None)
  end.
End AddSyncFolder.

(** The rooted flag and the cleaned elements of a non-empty path, and
    the path [Clean] writes for them. *)
Definition isRooted (path : string) : bool :=
  match path with
  | EmptyString => false
  | String c _ => Ascii.eqb c Separator
  end.

Definition cleanedElems (path : string) : list string :=
  cleanElems (isRooted path) [] (splitPath "" path).

Definition renderPath (rooted : bool) (elems : list string) : string :=
  let out := joinWith "/" elems in
  if rooted then "/" +:+ out
  else if bool_decide (out = "") then "." else out.

(** An element that [Clean] keeps when it meets it: neither empty nor
    the dot. *)
Definition keptElem (e : string) : bool :=
  negb (bool_decide (e = "") || bool_decide (e = ".")).

(** Go's [int32(x)] of an [int]: the low 32 bits, in two's complement. *)
Definition int32 (x : Z) : Z := ((x + 2 ^ 31) `mod` 2 ^ 32 - 2 ^ 31)%Z.

(** [v1.EnvVar] and [v1.Endpoint] of the devfile. *)
Module DevfileEnvVar.
Record t : Type := { Name : string; Value : string }.
End DevfileEnvVar.

Module Endpoint.
Record t : Type := { Name : string; TargetPort : Z }.
End Endpoint.

Module ContainerPort.
Record t : Type := { Name : string; ContainerPort : Z }.
End ContainerPort.

(** [intstr.IntOrString] and [intstr.FromInt]. *)
Module IntOrString.
Inductive kind : Type := Int | String.
Record t : Type := { Type_ : kind; IntVal : Z; StrVal : string }.
Definition FromInt (val : Z) : t :=
  {| Type_ := Int; IntVal := int32 val; StrVal := "" |}.
End IntOrString.

Module ServicePort.
Record t : Type := { Name : string; Port : Z; TargetPort : IntOrString.t }.
End ServicePort.

Module ServiceSpec.
Record t : Type := { Ports : list ServicePort.t; Selector : gmap string string }.
End ServiceSpec.

(** serviceSpecParams *)
Module serviceSpecParams.
Record t : Type :=
  { SelectorLabels : gmap string string;
    ContainerPorts : list ContainerPort.t }.
End serviceSpecParams.

(** convertEnvs *)
Definition convertEnvs (vars : list DevfileEnvVar.t) : list EnvVar.t :=
  fold_left
    (fun kVars env =>
       kVars ++ [{| EnvVar.Name := DevfileEnvVar.Name env;
                    EnvVar.Value := DevfileEnvVar.Value env |}])
    vars [].

(** getServiceSpec *)
Definition getServiceSpec (params : serviceSpecParams.t) : ServiceSpec.t :=
  let svcPorts :=
    fold_left
      (fun svcPorts containerPort =>
         let svcPort :=
           {| ServicePort.Name := ContainerPort.Name containerPort;
              ServicePort.Port := ContainerPort.ContainerPort containerPort;
              ServicePort.TargetPort :=
                IntOrString.FromInt (ContainerPort.ContainerPort containerPort) |} in
         svcPorts ++ [svcPort])
      (serviceSpecParams.ContainerPorts params) [] in
  {| ServiceSpec.Ports := svcPorts;
     ServiceSpec.Selector := serviceSpecParams.SelectorLabels params |}.

Section Conversions.
(** Helpers of the util package and of Go's strings package. *)
Variable GetDNS1123Name : string -> string.
Variable TruncateString : string -> Z -> string.
Variable ToLower : string -> string.
Variable TrimSpace : string -> string.

(** convertPorts *)
Definition convertPorts (endpoints : list Endpoint.t) : list ContainerPort.t :=
  fold_left
    (fun containerPorts endpoint =>
       let name := TrimSpace (GetDNS1123Name (ToLower (Endpoint.Name endpoint))) in
       let name := TruncateString name 15 in
       containerPorts ++
         [{| ContainerPort.Name := name;
             ContainerPort.ContainerPort := int32 (Endpoint.TargetPort endpoint) |}])
    endpoints [].
End Conversions.

Section ResourceReqs.
(** Kubernetes' [resource.Quantity] and its parser. *)
Variable Quantity : Type.
Variable ParseQuantity : string -> Result Quantity.

(** [corev1.ResourceMemory] *)
Definition ResourceMemory : string := "memory".

(** [corev1.ResourceRequirements]; [None] is a nil map. *)
Record ResourceRequirements : Type :=
  { Limits : option (gmap string Quantity);
    Requests : option (gmap string Quantity) }.

(** getResourceReqs *)
Definition getResourceReqs (comp : Component.t) : ResourceRequirements :=
  let reqs := {| Limits := None; Requests := None |} in
  let limits : gmap string Quantity := ∅ in
  match Component.Container comp with
  | Some container =>
      if bool_decide (ContainerComponent.MemoryLimit container <> "") then
        let limits :=
          match ParseQuantity (ContainerComponent.MemoryLimit container) with
          | OK memoryLimit => <[ResourceMemory := memoryLimit]> limits
          | Fail _ => limits
          end in
        {| Limits := Some limits; Requests := Requests reqs |}
      else reqs
  | None => reqs
  end.
End ResourceReqs.

Section AddSyncRootFolder.
(** Constants of the package. *)
Variable DevfileSourceVolumeMount : string.
Variable EnvProjectsRoot : string.

(** addSyncRootFolder: the container as it is after the call, and the
    folder. *)
Definition addSyncRootFolder (container : Container.t) (sourceMapping : string)
  : Container.t * string :=
  let syncRootFolder :=
    if bool_decide (sourceMapping <> "") then sourceMapping
    else DevfileSourceVolumeMount in
  (Container.appendEnv container
     {| EnvVar.Name := EnvProjectsRoot; EnvVar.Value := syncRootFolder |},
   syncRootFolder).
End AddSyncRootFolder.
End Generator.

(** ** A small world of documents, to run the parser on *)
Module Example.
Definition container (name image : string) : Component.t :=
  {| Component.Name := name;
     Component.Container :=
       Some {| ContainerComponent.Image := image; ContainerComponent.MemoryLimit := "" |};
     Component.Plugin := None;
     Component.Volume := None |}.

Definition pluginRef (name uri id : string) : Component.t :=
  {| Component.Name := name;
     Component.Container := None;
     Component.Plugin :=
       Some {| PluginComponent.Uri := uri;
               PluginComponent.Id := id;
               PluginComponent.RegistryUrl := "";
               PluginComponent.PluginOverrides := Overrides.zero |};
     Component.Volume := None |}.

Definition parentRef (uri : string) : Parent.t :=
  {| Parent.Uri := uri;
     Parent.Id := "";
     Parent.RegistryUrl := "";
     Parent.ParentOverrides := Overrides.zero |}.

Definition document (parent : option Parent.t) (components : list Component.t)
  : DevfileData.t :=
  {| DevfileData.SchemaVersion := "2.0.0";
     DevfileData.Parent := parent;
     DevfileData.Workspace :=
       {| Content.Components := components;
          Content.Commands := [];
          Content.Projects := [] |} |}.

(** What each location holds: [P] and [Q] are flat, [R] refers to [P]
    and [Q], [loop] names itself as its parent, the parent of [orphan]
    is missing; nothing else exists. *)
Definition documents (location : string) : option DevfileData.t :=
  if bool_decide (location = "P") then Some (document None [container "a" "img-a"])
  else if bool_decide (location = "Q") then Some (document None [container "b" "img-b"])
  else if bool_decide (location = "R") then
    Some (document (Some (parentRef "P")) [pluginRef "q" "Q" ""; container "c" "img-c"])
  else if bool_decide (location = "loop") then Some (document (Some (parentRef "loop")) [])
  else if bool_decide (location = "orphan") then
    Some (document (Some (parentRef "missing")) [container "c" "img-c"])
  else None.

Definition populate (location : string) : string * option Error :=
  match documents location with
  | Some _ => (location, None)
  | None => (location, Some ("failed to retrieve " +:+ location))
  end.

(** A context is the location it was created for; its content is the
    location's bytes, which the decoder looks up. *)
Definition loader : ContextLoader :=
  {| DevfileCtx := string;
     zeroCtx := "";
     NewDevfileCtx := fun path => path;
     NewURLDevfileCtx := fun url => url;
     Populate := populate;
     PopulateFromURL := populate;
     PopulateFromRaw := populate;
     SetDevfileContentFromBytes := fun data _ => (String.string_of_list_byte data, None);
     Validate := fun _ => None;
     GetApiVersion := fun _ => "2.0.0";
     GetDevfileContent := String.list_byte_of_string |}.

Definition decoder : DocumentDecoder :=
  {| NewDevfileData := fun _ => (Some (document None []), None);
     Unmarshal := fun content data =>
       match documents (String.string_of_list_byte content) with
       | Some doc => (Some doc, None)
       | None => (data, Some "unexpected end of JSON input")
       end |}.

Definition obj (location : string) (data : option DevfileData.t)
  : @DevfileObj loader :=
  {| Ctx := location : @DevfileCtx loader; Data := data |}.

Definition parse (fuel : nat) (location : string) :=
  @ParseFromURL loader decoder SpecApi.api fuel location.

Definition flatten (fuel : nat) (d : @DevfileObj loader) :=
  @parseParentAndPlugin loader decoder SpecApi.api fuel d.



Definition docR : @DevfileObj loader := obj "R" (documents "R").
Definition docP : @DevfileObj loader := obj "P" (documents "P").
Definition docOrphan : @DevfileObj loader := obj "orphan" (documents "orphan").

(** A document that defines [a] anew under the parent [P]. *)
Definition docClash : @DevfileObj loader :=
  obj "local" (Some (document (Some (parentRef "P")) [container "a" "img-local"])).

(** A local content whose plugin component bears the name of a
    component of the parent. *)
Definition localPluginA : Content.t :=
  {| Content.Components := [pluginRef "a" "Q" ""; container "c" "img-c"];
     Content.Commands := [];
     Content.Projects := [] |}.

Definition layerB : Content.t :=
  {| Content.Components := [container "b" "img-b"];
     Content.Commands := [];
     Content.Projects := [] |}.

(** A document with a plugin that names a registry entry and no URI. *)
Definition docById : @DevfileObj loader :=
  obj "local" (Some (document None [container "c" "img-c"; pluginRef "p" "" "java-tools"])).

Definition localA : Content.t :=
  {| Content.Components := [container "a" "img-local"];
     Content.Commands := [];
     Content.Projects := [] |}.

Definition parentA : Content.t :=
  {| Content.Components := [container "a" "img-a"];
     Content.Commands := [];
     Content.Projects := [] |}.

Definition holder : Generator.Container.t :=
  {| Generator.Container.Name := "runtime";
     Generator.Container.Image := "img";
     Generator.Container.Env := [] |}.

Definition project (name clonePath : string) : Project.t :=
  {| Project.Name := name; Project.ClonePath := clonePath; Project.Remote := "" |}.

(** A document whose parent is named by id, without URI. *)
Definition docParentById : @DevfileObj loader :=
  obj "local"
    (Some (document
             (Some {| Parent.Uri := "";
                      Parent.Id := "base-stack";
                      Parent.RegistryUrl := "";
                      Parent.ParentOverrides := Overrides.zero |})
             [container "c" "img-c"])).

(** A document with a plugin component equal to the zero value. *)
Definition docDefaultPlugin : @DevfileObj loader :=
  obj "local" (Some (document None [container "c" "img-c"; pluginRef "p" "" ""])).

(** A document whose first plugin cannot be fetched. *)
Definition docBadPlugin : @DevfileObj loader :=
  obj "local" (Some (document None [pluginRef "m" "missing" ""; container "c" "img-c"])).

(** A quantity parser that knows one quantity. *)
Definition parseQuantity (s : string) : Result string :=
  if bool_decide (s = "512Mi") then OK s else Fail ("cannot parse " +:+ s).

Definition memoryLimited (limit : string) : Component.t :=
  {| Component.Name := "runtime";
     Component.Container :=
       Some {| ContainerComponent.Image := "img"; ContainerComponent.MemoryLimit := limit |};
     Component.Plugin := None;
     Component.Volume := None |}.
End Example.

(** ** Notions the properties are stated with *)
Section Notions.
Context {loader : ContextLoader} {decoder : DocumentDecoder} {api : Overriding}.

(** No component of the content is of the Plugin variant. *)
Definition ordinaryContent (c : Content.t) : Prop :=
  Forall (fun component => Component.Plugin component = None) (Content.Components c).

(** A document without reference: no parent, no plugin component. *)
Definition flat (data : DevfileData.t) : Prop :=
  DevfileData.Parent data = None /\ ordinaryContent (DevfileData.Workspace data).

Definition flattened (d : DevfileObj) : Prop :=
  exists data, Data d = Some data /\ flat data.

(** The non-default plugins of a component list, in declaration order. *)
Definition pluginsOf (components : list Component.t) : list PluginComponent.t :=
  omap pluginOf components.

(** [layer] is [content] with [overrides] applied when there are any. *)
Definition overridden (content : Content.t) (overrides : Overrides.t) (layer : Content.t)
  : Prop :=
  if bool_decide (overrides <> Overrides.zero)
  then OverrideDevWorkspaceTemplateSpec content overrides = OK layer
  else layer = content.

(** [item] is the layer a plugin contributes and the URIs fetched for
    it: the plugin's document, fetched from its non-empty URI and parsed
    with flattening by [parse], then overridden. *)
Definition pluginLayer (parse : string -> Run (DevfileObj * option Error))
  (plugin : PluginComponent.t) (item : Content.t * list string) : Prop :=
  PluginComponent.Uri plugin <> "" /\
  exists pluginData data,
    parse (PluginComponent.Uri plugin) = Returns (pluginData, None) item.2 /\
    Data pluginData = Some data /\
    overridden (DevfileData.Workspace data) (PluginComponent.PluginOverrides plugin) item.1.

(** [item] is the layer of a plugin resolved in full: its document is
    fetched from its non-empty URI (the first URI of the fetches made
    for it), parsed and flattened by [ParseFromURL], so that it has no
    parent left, and then overridden. *)
Definition resolvedPlugin (fuel : nat) (plugin : PluginComponent.t)
  (item : Content.t * list string) : Prop :=
  PluginComponent.Uri plugin <> "" /\
  exists pluginData data rest,
    ParseFromURL fuel (PluginComponent.Uri plugin) = Returns (pluginData, None) item.2 /\
    item.2 = PluginComponent.Uri plugin :: rest /\
    Data pluginData = Some data /\
    DevfileData.Parent data = None /\
    overridden (DevfileData.Workspace data) (PluginComponent.PluginOverrides plugin) item.1.

(** The document [ParseFromURL] decodes at a URI, if it gets that far. *)
Definition loaded (url : string) : option DevfileData.t :=
  let d := withCtx zeroDevfileObj (NewURLDevfileCtx url) in
  let '(ctx, err) := PopulateFromURL (Ctx d) in
  match err with
  | Some _ => None
  | None =>
      let '(d, err) := decode (withCtx d ctx) in
      match err with
      | Some _ => None
      | None => Data d
      end
  end.

(** The URIs a document makes the resolver fetch. *)
Definition parentReference (data : DevfileData.t) : list string :=
  match DevfileData.Parent data with
  | Some parent =>
      if bool_decide (parent <> Parent.zero) && bool_decide (Parent.Uri parent <> "")
      then [Parent.Uri parent] else []
  | None => []
  end.

Definition pluginReferences (data : DevfileData.t) : list string :=
  filter (fun uri => uri <> "")
    (PluginComponent.Uri <$> pluginsOf (Content.Components (DevfileData.Workspace data))).

Definition references (data : DevfileData.t) : list string :=
  parentReference data ++ pluginReferences data.

(** The reference graph below a URI is acyclic and at most [n] documents
    deep; a URI that does not load has nothing below it. *)
Fixpoint acyclicWithin (n : nat) (url : string) : bool :=
  match loaded url with
  | None => true
  | Some data =>
      match n with
      | O => false
      | S n => forallb (acyclicWithin n) (references data)
      end
  end.

(** A set of URIs closed under "the parent of": each loads a document
    whose parent reference is in the set again, as on a cycle. *)
Definition parentClosed (C : string -> Prop) : Prop :=
  forall url, C url ->
    exists data parent,
      loaded url = Some data /\
      DevfileData.Parent data = Some parent /\
      Parent.Uri parent <> "" /\
      C (Parent.Uri parent).

(** Contracts of the override and merge functions that the properties
    of the resolver rest on. *)
Definition OverrideKeepsOrdinary : Prop :=
  forall content overrides result,
    ordinaryContent content ->
    OverrideDevWorkspaceTemplateSpec content overrides = OK result ->
    ordinaryContent result.

Definition MergeExpandsPlugins : Prop :=
  forall main parent plugins merged,
    ordinaryContent parent ->
    Forall ordinaryContent plugins ->
    MergeDevWorkspaceTemplateSpec main parent plugins = OK merged ->
    ordinaryContent merged.

Definition MergeKeepsInherited : Prop :=
  forall main parent plugins merged,
    MergeDevWorkspaceTemplateSpec main parent plugins = OK merged ->
    forall component,
      component ∈ Content.Components parent \/
      (exists plugin, plugin ∈ plugins /\ component ∈ Content.Components plugin) ->
      component ∈ Content.Components merged.

Definition MergeNeutral : Prop :=
  forall main,
    ordinaryContent main ->
    MergeDevWorkspaceTemplateSpec main Content.zero [] = OK main.
End Notions.

(** Definitions with one key in two different layers have one content. *)
Definition agree {A : Type} (key : A -> string) (layers : list (list A)) : Prop :=
  forall i j li lj x y,
    i < j -> layers !! i = Some li -> layers !! j = Some lj ->
    x ∈ li -> y ∈ lj -> key x = key y -> x = y.

(** [x] is defined by the parent layer or by one of the plugin layers. *)
Definition inheritedFrom {A : Type} (elements : Content.t -> list A)
  (parent : Content.t) (plugins : list Content.t) (x : A) : Prop :=
  x ∈ elements parent \/ exists plugin, plugin ∈ plugins /\ x ∈ elements plugin.

(** A run with more fuel refines one with less: it gives the same
    outcome wherever the shorter run did not exhaust its fuel. *)
Definition refines {A : Type} (short long : Run A) : Prop :=
  short = OutOfFuel \/ short = long.

(** * Properties *)

#[global] Arguments flattenParent : simpl never.
#[global] Arguments flattenPlugin : simpl never.

Lemma bind_Returns {A B} (m : Run A) (k : A -> Run B) (b : B) (log : list string) :
  m ≫= k = Returns b log <->
  exists a l1 l2, m = Returns a l1 /\ k a = Returns b l2 /\ log = l1 ++ l2.
Proof.
  unfold mbind, Run_bind, bind. split.
  - destruct m as [a l1| |]; try discriminate.
    destruct (k a) as [b' l2| |] eqn:Hk; try discriminate.
    intros [= -> <-]. by exists a, l1, l2.
  - intros (a & l1 & l2 & -> & -> & ->). reflexivity.
Qed.

Lemma bind_OutOfFuel {A B} (m : Run A) (k : A -> Run B) :
  m ≫= k = OutOfFuel <->
  m = OutOfFuel \/ exists a l, m = Returns a l /\ k a = OutOfFuel.
Proof.
  unfold mbind, Run_bind, bind. split.
  - destruct m as [a l1| |]; try discriminate; [|by left].
    destruct (k a) eqn:Hk; try discriminate. right. by exists a, l1.
  - intros [->|(a & l & -> & ->)]; reflexivity.
Qed.

Lemma call_Returns {A} (recv : option DevfileData.t) (method : DevfileData.t -> A)
  (a : A) (log : list string) :
  call recv method = Returns a log <-> exists p, recv = Some p /\ a = method p /\ log = [].
Proof.
  unfold call, ret. split.
  - destruct recv as [p|]; [|discriminate]. intros [= <- <-]. by exists p.
  - intros (p & -> & -> & ->). reflexivity.
Qed.

Lemma call_not_OutOfFuel {A} (recv : option DevfileData.t) (method : DevfileData.t -> A) :
  call recv method <> OutOfFuel.
Proof. by destruct recv. Qed.

Section ResolverFacts.
Context {loader : ContextLoader} {decoder : DocumentDecoder} {api : Overriding}.
Variable rec : string -> Run (DevfileObj * option Error).

(** What a returning call of parseParentAndPlugin has done. *)
Lemma parseParentAndPlugin_with_inv d d' err log :
  parseParentAndPlugin_with rec d = Returns (d', err) log ->
  exists data flattenedParent perr l1,
    Data d = Some data /\
    flattenParent rec (DevfileData.Parent data) = Returns (flattenedParent, perr) l1 /\
    match perr with
    | Some e => err = Some e /\ d' = d /\ log = l1
    | None =>
        exists plugins lerr l2,
          flattenPlugins rec (Content.Components (DevfileData.Workspace data)) []
            = Returns (plugins, lerr) l2 /\
          log = l1 ++ l2 /\
          match lerr with
          | Some e => err = Some e /\ d' = d
          | None =>
              match MergeDevWorkspaceTemplateSpec (DevfileData.Workspace data)
                      flattenedParent plugins with
              | Fail e => err = Some e /\ d' = d
              | OK merged =>
                  err = None /\
                  d' = withData d
                         (Some (DevfileData.SetParent None
                                  (DevfileData.SetDevfileWorkspace merged data)))
              end
          end
    end.
Proof.
  unfold parseParentAndPlugin_with. intros H.
  destruct (Data d) as [data|] eqn:Hd; [|discriminate]. cbn in H.
  destruct (flattenParent rec _) as [[fp perr] l1| |] eqn:Hp; try discriminate.
  exists data, fp, perr, l1. do 2 (split; [done|]).
  destruct perr as [e|]; cbn in H.
  { injection H as <- <- <-. by rewrite app_nil_r. }
  destruct (flattenPlugins rec _ _) as [[plugins lerr] l2| |] eqn:Hl; try discriminate.
  exists plugins, lerr, l2. split; [done|].
  destruct lerr as [e|]; cbn in H.
  { injection H as <- <- <-. by rewrite app_nil_r. }
  destruct (MergeDevWorkspaceTemplateSpec _ _ _) as [merged|e]; cbn in H.
  - injection H as <- <- <-. by rewrite !app_nil_r.
  - injection H as <- <- <-. by rewrite app_nil_r.
Qed.

(** parseParentAndPlugin, step by step, on a document that is there. *)
Lemma parseParentAndPlugin_with_eq d data :
  Data d = Some data ->
  parseParentAndPlugin_with rec d =
  match flattenParent rec (DevfileData.Parent data) with
  | Returns (_, Some e) l1 => Returns (d, Some e) l1
  | Returns (flattenedParent, None) l1 =>
      match flattenPlugins rec (Content.Components (DevfileData.Workspace data)) [] with
      | Returns (_, Some e) l2 => Returns (d, Some e) (l1 ++ l2)
      | Returns (plugins, None) l2 =>
          match MergeDevWorkspaceTemplateSpec (DevfileData.Workspace data)
                  flattenedParent plugins with
          | Fail e => Returns (d, Some e) (l1 ++ l2)
          | OK merged =>
              Returns (withData d
                         (Some (DevfileData.SetParent None
                                  (DevfileData.SetDevfileWorkspace merged data))), None)
                (l1 ++ l2)
          end
      | Panics => Panics
      | OutOfFuel => OutOfFuel
      end
  | Panics => Panics
  | OutOfFuel => OutOfFuel
  end.
Proof.
  intros Hd. unfold parseParentAndPlugin_with. rewrite Hd. cbn.
  unfold DevfileData.GetParent.
  destruct (flattenParent rec _) as [[fp [e|]] l1| |]; cbn; try reflexivity.
  { by rewrite app_nil_r. }
  destruct (flattenPlugins rec _ _) as [[plugins [e|]] l2| |]; cbn; try reflexivity.
  { by rewrite app_nil_r. }
  unfold DevfileData.GetDevfileWorkspace.
  destruct (MergeDevWorkspaceTemplateSpec _ _ _) as [merged|e]; cbn;
    by rewrite ?app_nil_r.
Qed.

Lemma flattenParent_inv parent flattenedParent log :
  flattenParent rec parent = Returns (flattenedParent, None) log ->
  (flattenedParent = Content.zero /\ log = []) \/
  exists p parentData data,
    parent = Some p /\ Parent.Uri p <> "" /\
    rec (Parent.Uri p) = Returns (parentData, None) log /\
    Data parentData = Some data /\
    overridden (DevfileData.Workspace data) (Parent.ParentOverrides p) flattenedParent.
Proof.
  unfold flattenParent. intros H.
  destruct parent as [p|]; [|injection H as <- <-; by left].
  destruct (bool_decide (p <> Parent.zero) && bool_decide (Parent.Uri p <> "")) eqn:Hc;
    [|injection H as <- <-; by left].
  apply andb_prop in Hc as [_ Huri%bool_decide_eq_true].
  apply bind_Returns in H as ([parentData err] & l1 & l2 & Hrec & H & ->).
  destruct err as [e|]; [discriminate|].
  apply bind_Returns in H as (content & l3 & l4 & Hcall & H & ->).
  apply call_Returns in Hcall as (data & Hdata & -> & ->).
  right. exists p, parentData, data. unfold overridden.
  destruct (bool_decide (Parent.ParentOverrides p <> Overrides.zero)).
  - destruct (OverrideDevWorkspaceTemplateSpec _ _) as [r|e] eqn:Ho; [|discriminate].
    injection H as <- <-. by rewrite !app_nil_r.
  - injection H as <- <-. by rewrite !app_nil_r.
Qed.

Lemma flattenPlugin_inv plugin layer log :
  flattenPlugin rec plugin = Returns (layer, None) log ->
  pluginLayer rec plugin (layer, log).
Proof.
  unfold flattenPlugin, pluginLayer. intros H.
  apply bind_Returns in H as ([pluginData err] & l1 & l2 & Hrec & H & ->).
  destruct err as [e|]; [discriminate|].
  apply bind_Returns in H as (content & l3 & l4 & Hcall & H & ->).
  apply call_Returns in Hcall as (data & Hdata & -> & ->).
  destruct (bool_decide (PluginComponent.Uri plugin <> "")) eqn:Huri.
  - apply bool_decide_eq_true in Huri. split; [done|].
    exists pluginData, data. unfold overridden. cbn.
    destruct (bool_decide (PluginComponent.PluginOverrides plugin <> Overrides.zero)).
    + destruct (OverrideDevWorkspaceTemplateSpec _ _) as [r|e] eqn:Ho; [|discriminate].
      injection H as <- <-. by rewrite !app_nil_r.
    + injection H as <- <-. by rewrite !app_nil_r.
  - injection Hrec as <- <-. discriminate.
Qed.

Lemma flattenPlugins_inv components acc plugins log :
  flattenPlugins rec components acc = Returns (plugins, None) log ->
  exists items,
    Forall2 (pluginLayer rec) (pluginsOf components) items /\
    plugins = acc ++ items.*1 /\
    log = concat items.*2.
Proof.
  revert acc log. induction components as [|component components IH]; intros acc log H.
  - injection H as <- <-. exists []. by rewrite app_nil_r.
  - cbn in H. unfold pluginsOf. cbn.
    destruct (pluginOf component) as [plugin|]; cbn.
    + apply bind_Returns in H as ([result err] & l1 & l2 & Hp & H & ->).
      destruct err as [e|]; [discriminate|].
      apply flattenPlugin_inv in Hp.
      apply IH in H as (items & Hitems & -> & ->).
      exists ((result, l1) :: items). split; [by constructor|].
      cbn. by rewrite <- app_assoc.
    + by apply IH.
Qed.

(** The inherited layers are free of plugin components when the
    documents the recursive entry point delivers are flattened. *)
Section Flattened.
Hypothesis rec_flattened :
  forall url d log, rec url = Returns (d, None) log -> flattened d.
Hypothesis override_ok : OverrideKeepsOrdinary.
Hypothesis merge_ok : MergeExpandsPlugins.

Lemma overridden_ordinary content overrides layer :
  ordinaryContent content -> overridden content overrides layer -> ordinaryContent layer.
Proof.
  unfold overridden. intros Hc H.
  destruct (bool_decide (overrides <> Overrides.zero)).
  - by eapply override_ok.
  - by subst.
Qed.

Lemma parseParentAndPlugin_with_flattened d d' log :
  parseParentAndPlugin_with rec d = Returns (d', None) log -> flattened d'.
Proof.
  intros H. apply parseParentAndPlugin_with_inv in H
    as (data & flattenedParent & perr & l1 & Hd & Hp & H).
  destruct perr as [e|]; [by destruct H|].
  destruct H as (plugins & lerr & l2 & Hl & -> & H).
  destruct lerr as [e|]; [by destruct H|].
  destruct (MergeDevWorkspaceTemplateSpec _ _ _) as [merged|e] eqn:Hm; [|by destruct H].
  destruct H as [_ ->]. eexists. split; [reflexivity|]. split; [reflexivity|].
  cbn. eapply merge_ok; [| |exact Hm].
  - apply flattenParent_inv in Hp as [[-> _]|(p & pd & pdata & _ & _ & Hr & Hpd & Ho)].
    + constructor.
    + apply rec_flattened in Hr as (pdata' & Hpd' & _ & Hord).
      rewrite Hpd in Hpd'. injection Hpd' as <-.
      by eapply overridden_ordinary.
  - apply flattenPlugins_inv in Hl as (items & Hitems & -> & _). cbn.
    clear -Hitems rec_flattened override_ok.
    induction Hitems as [|plugin [layer l] ps items Hitem _ IH]; [constructor|].
    cbn. constructor; [|exact IH].
    destruct Hitem as (_ & pd & pdata & Hr & Hpd & Ho).
    apply rec_flattened in Hr as (pdata' & Hpd' & _ & Hord).
    rewrite Hpd in Hpd'. injection Hpd' as <-.
    by eapply overridden_ordinary.
Qed.

Lemma parseDevfile_with_flattened d d' log :
  parseDevfile_with rec d true = Returns (d', None) log -> flattened d'.
Proof.
  unfold parseDevfile_with. destruct (decode d) as [d1 [e|]]; [discriminate|].
  intros H. apply bind_Returns in H as ([d2 err] & l1 & l2 & Hp & H & ->).
  destruct err as [e|]; [discriminate|]. injection H as <- <-.
  by eapply parseParentAndPlugin_with_flattened.
Qed.
End Flattened.
End ResolverFacts.

Section ParserFacts.
Context {loader : ContextLoader} {decoder : DocumentDecoder} {api : Overriding}.

(** One level of [ParseFromURL], the fetch recorded first. *)
Lemma ParseFromURL_S fuel url :
  ParseFromURL (S fuel) url =
  let d := withCtx zeroDevfileObj (NewURLDevfileCtx url) in
  match PopulateFromURL (Ctx d) with
  | (ctx, Some err) => Returns (withCtx d ctx, Some err) [url]
  | (ctx, None) =>
      match parseDevfile_with (ParseFromURL fuel) (withCtx d ctx) true with
      | Returns r l => Returns r (url :: l)
      | Panics => Panics
      | OutOfFuel => OutOfFuel
      end
  end.
Proof. cbn. destruct (PopulateFromURL _) as [ctx [e|]]; reflexivity. Qed.

Lemma ParseFromURL_flattened fuel :
  OverrideKeepsOrdinary -> MergeExpandsPlugins ->
  forall url d log, ParseFromURL fuel url = Returns (d, None) log -> flattened d.
Proof.
  intros Ho Hm. induction fuel as [|fuel IH]; intros url d log H; [discriminate|].
  rewrite ParseFromURL_S in H. cbv zeta in H.
  destruct (PopulateFromURL _) as [ctx [e|]]; [discriminate|].
  destruct (parseDevfile_with _ _ _) as [[d2 e2] l2| |] eqn:Hp; try discriminate.
  injection H as -> -> <-.
  by eapply parseDevfile_with_flattened.
Qed.

End ParserFacts.

(** ** The merge and override contracts *)
Section KeyedFacts.
Context {A : Type} `{EqDecision A} (key : A -> string).

Lemma clashes_false x l :
  SpecApi.clashes key x l = false <-> forall y, y ∈ l -> key y = key x -> y = x.
Proof.
  unfold SpecApi.clashes. induction l as [|z l IH]; cbn.
  - split; [|done]. intros _ y Hy. by apply elem_of_nil in Hy.
  - rewrite orb_false_iff, IH, andb_false_iff, !bool_decide_eq_false. split.
    + intros [Hz Hl] y [->|Hy]%elem_of_cons Hk; [|by apply Hl].
      destruct Hz as [Hz|Hz]; [done|]. by destruct (decide (z = x)).
    + intros Hall. split.
      * destruct (decide (key z = key x)) as [Hk|Hk]; [|by left].
        right. intros Hne. apply Hne, Hall; [left|done].
      * intros y Hy. apply Hall. by right.
Qed.

Lemma hasKey_true k l :
  SpecApi.hasKey key k l = true <-> exists y, y ∈ l /\ key y = k.
Proof.
  unfold SpecApi.hasKey. induction l as [|z l IH]; cbn.
  - split; [done|]. intros (y & Hy & _). by apply elem_of_nil in Hy.
  - rewrite orb_true_iff, IH, bool_decide_eq_true. split.
    + intros [Hz|(y & Hy & Hk)]; [exists z|exists y]; split; try done; [left|by right].
    + intros (y & [->|Hy]%elem_of_cons & Hk); [by left|right; by exists y].
Qed.

Lemma fresh_OK inherited layer new :
  SpecApi.fresh key inherited layer = OK new ->
  (forall x y, x ∈ layer -> y ∈ inherited -> key y = key x -> y = x) /\
  (forall x, x ∈ new -> x ∈ layer) /\
  (forall x, x ∈ layer -> x ∈ inherited \/ x ∈ new).
Proof.
  revert new. induction layer as [|x layer IH]; intros new H; cbn in H.
  - injection H as <-. repeat split.
    + intros ? ? Hx. by apply elem_of_nil in Hx.
    + done.
    + intros ? Hx. by apply elem_of_nil in Hx.
  - destruct (SpecApi.clashes key x inherited) eqn:Hc; [discriminate|].
    destruct (SpecApi.fresh key inherited layer) as [rest|e]; [|discriminate].
    injection H as <-. destruct (IH rest eq_refl) as (IH1 & IH2 & IH3).
    rewrite clashes_false in Hc. repeat split.
    + intros x' y Hx' Hy Hk. apply elem_of_cons in Hx' as [Heq|Hx].
      * subst x'. by apply Hc.
      * by eapply IH1.
    + intros x' Hx'. destruct (SpecApi.hasKey key (key x) inherited).
      * right. by apply IH2.
      * apply elem_of_cons in Hx' as [->|Hx']; [left|right; by apply IH2].
    + intros x' Hx'. apply elem_of_cons in Hx' as [Heq|Hx].
      * subst x'. destruct (SpecApi.hasKey key (key x) inherited) eqn:Hh.
        -- apply hasKey_true in Hh as (y & Hy & Hk). left.
           by rewrite <- (Hc y Hy Hk).
        -- right. left.
      * destruct (IH3 x' Hx) as [Hi|Hn]; [by left|right].
        destruct (SpecApi.hasKey key (key x) inherited); [done|by right].
Qed.

Lemma fresh_nil layer : SpecApi.fresh key [] layer = OK layer.
Proof. induction layer as [|x layer IH]; cbn; [done|]. by rewrite IH. Qed.

Lemma mergeLayers_OK merged layers result :
  SpecApi.mergeLayers key merged layers = OK result ->
  (forall x, x ∈ merged -> x ∈ result) /\
  (forall layer x, layer ∈ layers -> x ∈ layer -> x ∈ result) /\
  (forall x, x ∈ result -> x ∈ merged \/ exists layer, layer ∈ layers /\ x ∈ layer) /\
  (forall layer x y, layer ∈ layers -> y ∈ layer -> x ∈ merged -> key x = key y -> x = y) /\
  agree key layers.
Proof.
  revert merged. induction layers as [|l layers IH]; intros merged H; cbn in H.
  - injection H as <-. split; [done|]. split.
    { intros ? ? Hl. by apply elem_of_nil in Hl. }
    split; [by left|]. split.
    { intros ? ? ? Hl. by apply elem_of_nil in Hl. }
    intros i j li lj x y _ Hi. by rewrite lookup_nil in Hi.
  - destruct (SpecApi.fresh key merged l) as [new|e] eqn:Hf; [|discriminate].
    apply fresh_OK in Hf as (F1 & F2 & F3).
    destruct (IH _ H) as (I1 & I2 & I3 & I4 & I5).
    assert (Hin : forall x, x ∈ l -> x ∈ result).
    { intros x Hx. apply I1, elem_of_app. destruct (F3 x Hx); [by left|by right]. }
    repeat split.
    + intros x Hx. apply I1, elem_of_app. by left.
    + intros layer x [->|Hl]%elem_of_cons Hx; [by apply Hin|by eapply I2].
    + intros x Hx. destruct (I3 x Hx) as [[Hm|Hn]%elem_of_app|(layer & Hl & Hxl)].
      * by left.
      * right. exists l. split; [left|by apply F2].
      * right. exists layer. split; [by right|done].
    + intros layer x y [->|Hl]%elem_of_cons Hy Hx Hk.
      * by eapply F1.
      * eapply I4; eauto. apply elem_of_app. by left.
    + intros i j li lj x y Hij Hi Hj Hx Hy Hk.
      destruct j as [|j]; [lia|]. cbn in Hj. destruct i as [|i]; cbn in Hi.
      * injection Hi as <-. eapply I4; eauto.
        -- by eapply list_elem_of_lookup_2.
        -- apply elem_of_app. destruct (F3 x Hx); [by left|by right].
      * eapply I5; [|exact Hi|exact Hj| | |]; [lia|done..].
Qed.

Lemma replaceKeyed_Forall (P : A -> Prop) patchKey apply l result :
  (forall x, P x -> P (apply x)) -> Forall P l ->
  SpecApi.replaceKeyed key patchKey apply l = OK result -> Forall P result.
Proof.
  intros Hap. revert result. induction l as [|x l IH]; intros result Hl H; cbn in H.
  - discriminate.
  - apply Forall_cons in Hl as [Hx Hl].
    destruct (bool_decide (key x = patchKey)).
    + injection H as <-. constructor; auto.
    + destruct (SpecApi.replaceKeyed key patchKey apply l) as [l'|e]; [|discriminate].
      injection H as <-. constructor; auto.
Qed.
End KeyedFacts.

Lemma overrideAll_Forall {A P : Type} (Q : A -> Prop)
  (step : P -> list A -> Result (list A)) patches l result :
  (forall p l l', Forall Q l -> step p l = OK l' -> Forall Q l') ->
  Forall Q l -> SpecApi.overrideAll step patches l = OK result -> Forall Q result.
Proof.
  intros Hstep. revert l. induction patches as [|p patches IH]; intros l Hl H; cbn in H.
  - by injection H as <-.
  - destruct (step p l) as [l'|e] eqn:Hs; [|discriminate]. eauto.
Qed.

Lemma agree_local {A : Type} (key : A -> string) (elements : Content.t -> list A)
  parent plugins (local : list A) x y :
  agree key ((elements parent :: map elements plugins) ++ [local]) ->
  x ∈ local -> inheritedFrom elements parent plugins y -> key y = key x -> y = x.
Proof.
  intros Hag Hx Hy Hk.
  assert (Hlast : ((elements parent :: map elements plugins) ++ [local])
                    !! S (length plugins) = Some local).
  { rewrite lookup_app_r; cbn; rewrite length_map; [|lia].
    by rewrite Nat.sub_diag. }
  destruct Hy as [Hy|(plugin & Hp & Hy)].
  - eapply (Hag 0 (S (length plugins))); eauto. lia.
  - apply list_elem_of_lookup_1 in Hp as (i & Hi).
    eapply (Hag (S i) (S (length plugins)) (elements plugin)); eauto.
    + apply lookup_lt_Some in Hi. lia.
    + rewrite lookup_app_l
        by (apply lookup_lt_Some in Hi; cbn; rewrite length_map; lia).
      change (map elements plugins !! i = Some (elements plugin)).
      by rewrite list_lookup_fmap, Hi.
Qed.

Lemma mergeLayers_local {A : Type} `{EqDecision A} (key : A -> string)
  (inherited : list (list A)) (local merged : list A) x :
  SpecApi.mergeLayers key [] (inherited ++ [local]) = OK merged -> x ∈ local -> x ∈ merged.
Proof.
  intros H Hx. apply mergeLayers_OK in H as (_ & H & _).
  apply (H local); [|done]. apply elem_of_app. right. left.
Qed.

Lemma Merge_OK main parent plugins merged :
  SpecApi.Merge main parent plugins = OK merged ->
  (exists all,
     SpecApi.mergeLayers Component.Name [] (SpecApi.componentLayers main parent plugins)
       = OK all) /\
  SpecApi.mergeLayers Component.Name [] (SpecApi.expandedLayers main parent plugins)
    = OK (Content.Components merged) /\
  SpecApi.mergeLayers Command.Id [] (SpecApi.commandLayers main parent plugins)
    = OK (Content.Commands merged) /\
  SpecApi.mergeLayers Project.Name [] (SpecApi.projectLayers main parent plugins)
    = OK (Content.Projects merged).
Proof.
  unfold SpecApi.Merge, SpecApi.mergeComponents. intros H.
  destruct (SpecApi.mergeLayers Component.Name [] (SpecApi.componentLayers _ _ _))
    as [all|e]; [|discriminate].
  destruct (SpecApi.mergeLayers Component.Name [] (SpecApi.expandedLayers _ _ _))
    as [components|e]; [|discriminate].
  destruct (SpecApi.mergeLayers Command.Id _ _) as [commands|e]; [|discriminate].
  destruct (SpecApi.mergeLayers Project.Name _ _) as [projects|e]; [|discriminate].
  injection H as <-. split; [by exists all|done].
Qed.

(** C2.  The merge, as the specification describes it, treats every name
    collision alike, for components (those of the Plugin variant
    included), commands and projects and for every pair of layers: a name
    defined with different content in two layers is a merge error; when
    the merge succeeds every local definition other than a plugin
    component is part of the result, and a definition inherited from the
    parent or a plugin under the name of a local one is identical to the
    local one.
    parseParentAndPlugin adds no policy of its own: a merge error on the
    layers it has resolved is the error it returns, the document left as
    it was. *)
Theorem merge_collision_policy main parent plugins :
  (forall merged,
     SpecApi.Merge main parent plugins = OK merged ->
     (agree Component.Name (SpecApi.componentLayers main parent plugins) /\
      agree Command.Id (SpecApi.commandLayers main parent plugins) /\
      agree Project.Name (SpecApi.projectLayers main parent plugins)) /\
     (forall x y,
        x ∈ Content.Components main ->
        (Component.Plugin x = None -> x ∈ Content.Components merged) /\
        (inheritedFrom Content.Components parent plugins y ->
         Component.Name y = Component.Name x -> y = x)) /\
     (forall x y,
        x ∈ Content.Commands main ->
        x ∈ Content.Commands merged /\
        (inheritedFrom Content.Commands parent plugins y ->
         Command.Id y = Command.Id x -> y = x)) /\
     (forall x y,
        x ∈ Content.Projects main ->
        x ∈ Content.Projects merged /\
        (inheritedFrom Content.Projects parent plugins y ->
         Project.Name y = Project.Name x -> y = x))) /\
  (~ agree Component.Name (SpecApi.componentLayers main parent plugins) \/
   ~ agree Command.Id (SpecApi.commandLayers main parent plugins) \/
   ~ agree Project.Name (SpecApi.projectLayers main parent plugins) ->
   exists err, SpecApi.Merge main parent plugins = Fail err) /\
  (forall (loader : ContextLoader) (decoder : DocumentDecoder) fuel
     (d : @DevfileObj loader) data l1 l2 err,
     Data d = Some data ->
     main = DevfileData.Workspace data ->
     flattenParent (api := SpecApi.api) (ParseFromURL (api := SpecApi.api) fuel)
       (DevfileData.Parent data) = Returns (parent, None) l1 ->
     flattenPlugins (api := SpecApi.api) (ParseFromURL (api := SpecApi.api) fuel)
       (Content.Components main) [] = Returns (plugins, None) l2 ->
     SpecApi.Merge main parent plugins = Fail err ->
     parseParentAndPlugin (api := SpecApi.api) fuel d = Returns (d, Some err) (l1 ++ l2)).
Proof.
  assert (Hok : forall merged,
    SpecApi.Merge main parent plugins = OK merged ->
    (exists all,
       SpecApi.mergeLayers Component.Name [] (SpecApi.componentLayers main parent plugins)
         = OK all) /\
    SpecApi.mergeLayers Component.Name [] (SpecApi.expandedLayers main parent plugins)
      = OK (Content.Components merged) /\
    SpecApi.mergeLayers Command.Id [] (SpecApi.commandLayers main parent plugins)
      = OK (Content.Commands merged) /\
    SpecApi.mergeLayers Project.Name [] (SpecApi.projectLayers main parent plugins)
      = OK (Content.Projects merged)).
  { intros merged H. by apply Merge_OK. }
  assert (Hagree : forall merged,
    SpecApi.Merge main parent plugins = OK merged ->
    agree Component.Name (SpecApi.componentLayers main parent plugins) /\
    agree Command.Id (SpecApi.commandLayers main parent plugins) /\
    agree Project.Name (SpecApi.projectLayers main parent plugins)).
  { intros merged ([all H1] & _ & H2 & H3)%Hok.
    apply mergeLayers_OK in H1 as (_ & _ & _ & _ & H1).
    apply mergeLayers_OK in H2 as (_ & _ & _ & _ & H2).
    by apply mergeLayers_OK in H3 as (_ & _ & _ & _ & H3). }
  split.
  - intros merged H. destruct (Hagree _ H) as (A1 & A2 & A3).
    destruct (Hok _ H) as (_ & H1 & H2 & H3). split; [done|].
    split; [|split].
    + intros x y Hx. split.
      * intros Hord. eapply mergeLayers_local; [exact H1|].
        apply list_elem_of_filter. split; [|done]. unfold SpecApi.ordinary. by rewrite Hord.
      * intros Hy Hk. eapply (agree_local Component.Name Content.Components); eauto.
    + intros x y Hx. split; [by eapply mergeLayers_local|].
      intros Hy Hk. eapply (agree_local Command.Id Content.Commands); eauto.
    + intros x y Hx. split; [by eapply mergeLayers_local|].
      intros Hy Hk. eapply (agree_local Project.Name Content.Projects); eauto.
  - split.
    + intros Hno. destruct (SpecApi.Merge main parent plugins) as [merged|err] eqn:H.
      * destruct (Hagree _ eq_refl) as (A1 & A2 & A3). tauto.
      * by exists err.
    + intros loader decoder fuel d data l1 l2 err Hd -> Hp Hl Hm.
      unfold parseParentAndPlugin.
      rewrite (parseParentAndPlugin_with_eq (api := SpecApi.api) _ _ _ Hd), Hp, Hl.
      cbn [MergeDevWorkspaceTemplateSpec SpecApi.api]. by rewrite Hm.
Qed.

(** The functions of [SpecApi] meet the contracts the resolver needs. *)
Lemma SpecApi_override_keeps_ordinary : @OverrideKeepsOrdinary SpecApi.api.
Proof.
  intros content overrides result Hc H. cbn in H. unfold SpecApi.Override in H.
  destruct (SpecApi.overrideAll _ (Overrides.Components overrides) _)
    as [components|e] eqn:Ho; [|discriminate].
  destruct (SpecApi.overrideAll _ (Overrides.Commands overrides) _)
    as [commands|e]; [|discriminate].
  destruct (SpecApi.overrideAll _ (Overrides.Projects overrides) _)
    as [projects|e]; [|discriminate].
  injection H as <-. unfold ordinaryContent. cbn.
  eapply overrideAll_Forall; [|exact Hc|exact Ho].
  intros o l l' Hl Hr. eapply replaceKeyed_Forall; [|exact Hl|exact Hr].
  by intros x Hx.
Qed.

Lemma SpecApi_merge_expands_plugins : @MergeExpandsPlugins SpecApi.api.
Proof.
  intros main parent plugins merged Hp Hps H. cbn in H.
  apply Merge_OK in H as (_ & Hc & _). unfold ordinaryContent.
  apply mergeLayers_OK in Hc as (_ & _ & Hfrom & _).
  apply Forall_forall. intros x Hx.
  destruct (Hfrom x Hx) as [Hnil|(layer & Hl & Hxl)]; [by apply elem_of_nil in Hnil|].
  unfold SpecApi.expandedLayers in Hl.
  apply elem_of_app in Hl as [Hl|Hl].
  - apply elem_of_cons in Hl as [->|Hl].
    + by eapply (proj1 (Forall_forall _ _) Hp).
    + apply list_elem_of_fmap in Hl as (plugin & -> & Hplugin).
      eapply (proj1 (Forall_forall _ _) Hps) in Hplugin.
      by eapply (proj1 (Forall_forall _ _) Hplugin).
  - apply list_elem_of_singleton in Hl as ->.
    apply list_elem_of_filter in Hxl as [Hord _]. unfold SpecApi.ordinary in Hord.
    by destruct (Component.Plugin x).
Qed.

Lemma SpecApi_merge_neutral : @MergeNeutral SpecApi.api.
Proof.
  intros main Hm. cbn. unfold SpecApi.Merge, SpecApi.mergeComponents,
    SpecApi.componentLayers, SpecApi.expandedLayers,
    SpecApi.commandLayers, SpecApi.projectLayers. cbn.
  rewrite !fresh_nil. cbn.
  replace (filter (fun c => SpecApi.ordinary c = true) (Content.Components main))
    with (Content.Components main); [by destruct main|].
  unfold ordinaryContent in Hm. induction Hm as [|c l Hc _ IH]; [done|].
  rewrite filter_cons_True by (unfold SpecApi.ordinary; by rewrite Hc).
  by rewrite <- IH.
Qed.

Lemma SpecApi_merge_keeps_inherited : @MergeKeepsInherited SpecApi.api.
Proof.
  intros main parent plugins merged H component Hc. cbn in H.
  apply Merge_OK in H as (_ & H & _).
  apply mergeLayers_OK in H as (_ & Hin & _).
  unfold SpecApi.expandedLayers in Hin.
  destruct Hc as [Hc|(plugin & Hplugin & Hc)].
  - apply (Hin (Content.Components parent)); [|done]. apply elem_of_app. left. left.
  - apply (Hin (Content.Components plugin)); [|done]. apply elem_of_app. left. right.
    apply list_elem_of_fmap. by exists plugin.
Qed.

Section ParserProperties.
Context {loader : ContextLoader} {decoder : DocumentDecoder} {api : Overriding}.

Lemma withData_same (d : DevfileObj) : withData d (Data d) = d.
Proof. by destruct d. Qed.

(** The loop over the components does nothing on ordinary components. *)
Lemma flattenPlugins_ordinary rec components plugins :
  Forall (fun component => Component.Plugin component = None) components ->
  flattenPlugins rec components plugins = Returns (plugins, None) [].
Proof.
  induction 1 as [|component components Hc _ IH]; [done|].
  cbn. unfold pluginOf. by rewrite Hc.
Qed.

(** C10.  parseParentAndPlugin writes to the document only once every
    fetch, override and merge has succeeded: when it returns an error,
    the document (its workspace content and its parent) is as it was on
    entry. *)
Theorem flattening_is_atomic fuel d d' err log :
  parseParentAndPlugin fuel d = Returns (d', Some err) log ->
  d' = d /\ Data d' = Data d.
Proof.
  intros H. apply parseParentAndPlugin_with_inv in H
    as (data & flattenedParent & perr & l1 & Hd & Hp & H).
  assert (d' = d); [|by subst].
  destruct perr as [e|]; [by destruct H as (_ & -> & _)|].
  destruct H as (plugins & lerr & l2 & Hl & -> & H).
  destruct lerr as [e|]; [by destruct H as (_ & ->)|].
  destruct (MergeDevWorkspaceTemplateSpec _ _ _) as [merged|e].
  - by destruct H.
  - by destruct H as (_ & ->).
Qed.

(** A parent whose fetch fails makes parseParentAndPlugin return the
    error of the fetch. *)
Lemma parent_fetch_failure fuel d data parent ctx err :
  Data d = Some data ->
  DevfileData.Parent data = Some parent ->
  Parent.Uri parent <> "" ->
  PopulateFromURL (NewURLDevfileCtx (Parent.Uri parent)) = (ctx, Some err) ->
  parseParentAndPlugin (S fuel) d = Returns (d, Some err) [Parent.Uri parent].
Proof.
  intros Hd Hp Huri Hfetch.
  assert (Hnz : parent <> Parent.zero) by (intros ->; by apply Huri).
  assert (Hparent : flattenParent (ParseFromURL (S fuel)) (Some parent)
                    = Returns (Content.zero, Some err) [Parent.Uri parent]).
  { unfold flattenParent.
    rewrite (bool_decide_eq_true_2 _ Hnz), (bool_decide_eq_true_2 _ Huri).
    rewrite ParseFromURL_S. cbn [withCtx Ctx zeroDevfileObj Data]. cbv zeta.
    cbn [withCtx Ctx zeroDevfileObj Data]. rewrite Hfetch. reflexivity. }
  unfold parseParentAndPlugin. rewrite (parseParentAndPlugin_with_eq _ _ _ Hd).
  by rewrite Hp, Hparent.
Qed.

(** C4.  When the flattening step fails, parseDevfile called with
    flatten = true returns the zero DevfileObj and the error; a parent
    reference whose fetch fails is such a failure. *)
Theorem flatten_failure_resets fuel :
  (forall d d1 d2 err log,
     decode d = (d1, None) ->
     parseParentAndPlugin fuel d1 = Returns (d2, Some err) log ->
     parseDevfile fuel d true = Returns (zeroDevfileObj, Some err) log) /\
  (forall d d1 data parent ctx err,
     decode d = (d1, None) ->
     Data d1 = Some data ->
     DevfileData.Parent data = Some parent ->
     Parent.Uri parent <> "" ->
     PopulateFromURL (NewURLDevfileCtx (Parent.Uri parent)) = (ctx, Some err) ->
     parseDevfile (S fuel) d true
       = Returns (zeroDevfileObj, Some err) [Parent.Uri parent]).
Proof.
  assert (Hfirst : forall fuel d d1 d2 err log,
     decode d = (d1, None) ->
     parseParentAndPlugin fuel d1 = Returns (d2, Some err) log ->
     parseDevfile fuel d true = Returns (zeroDevfileObj, Some err) log).
  { intros fuel' d d1 d2 err log Hdec Hflat.
    unfold parseDevfile, parseDevfile_with. rewrite Hdec.
    unfold parseParentAndPlugin in Hflat. rewrite Hflat. cbn.
    by rewrite app_nil_r. }
  split; [apply Hfirst|].
  intros d d1 data parent ctx err Hdec Hd Hp Huri Hfetch.
  eapply Hfirst; [exact Hdec|]. by eapply parent_fetch_failure.
Qed.

(** C7.  In raw mode (flatten = false) the resolver is not invoked:
    whatever the recursive entry point, parseDevfile returns what the
    decoding step produced and fetches nothing; ParseRawDevfile returns
    for any fuel, with no URI fetched, and on success the data of its
    result is the document as the decoder left it, parent reference and
    plugin components included. *)
Theorem raw_mode_never_fetches :
  (forall rec d, parseDevfile_with rec d false = Returns (decode d) []) /\
  (forall fuel path,
     exists d err,
       ParseRawDevfile fuel path = Returns (d, err) [] /\
       (err = None ->
        exists ctx,
          Populate (NewDevfileCtx path) = (ctx, None) /\
          Data d = (Unmarshal (GetDevfileContent ctx)
                      (NewDevfileData (GetApiVersion ctx)).1).1)).
Proof.
  assert (Hraw : forall rec d, parseDevfile_with rec d false = Returns (decode d) []).
  { intros rec d. unfold parseDevfile_with.
    by destruct (decode d) as [d1 [e|]]. }
  split; [exact Hraw|].
  intros fuel path. unfold ParseRawDevfile, parseDevfile.
  cbn [withCtx Ctx zeroDevfileObj Data]. cbv zeta.
  destruct (Populate (NewDevfileCtx path)) as [ctx [e|]] eqn:Hpop.
  - eexists _, _. split; [reflexivity|discriminate].
  - rewrite Hraw. cbn [withCtx Ctx zeroDevfileObj Data].
    destruct (decode _) as [d1 err] eqn:Hdec. exists d1, err. split; [done|].
    intros ->. exists ctx. split; [done|].
    unfold decode in Hdec. cbn [withCtx withData Ctx Data] in Hdec.
    destruct (Validate ctx); [discriminate|].
    destruct (NewDevfileData (GetApiVersion ctx)) as [data [e|]]; [discriminate|].
    cbn [fst]. destruct (Unmarshal _ _) as [data' [e|]]; [discriminate|].
    by injection Hdec as <-.
Qed.

(** C6.  Flattening a flat document (no parent, no component of the
    Plugin variant) fetches nothing and returns the document as it was,
    given that the merge of a content with an empty parent layer and no
    plugin layer is that content. *)
Theorem flat_document_unchanged fuel d data :
  MergeNeutral ->
  Data d = Some data ->
  DevfileData.Parent data = None ->
  Forall (fun component => Component.Plugin component = None)
    (Content.Components (DevfileData.Workspace data)) ->
  parseParentAndPlugin fuel d = Returns (d, None) [].
Proof.
  intros Hneutral Hd Hp Hord.
  unfold parseParentAndPlugin. rewrite (parseParentAndPlugin_with_eq _ _ _ Hd).
  rewrite Hp. unfold flattenParent, ret.
  rewrite (flattenPlugins_ordinary _ _ _ Hord), (Hneutral _ Hord). cbn.
  rewrite <- (withData_same d) at 2. rewrite Hd. do 4 f_equal.
  destruct data as [v p w]. cbn in *. by subst.
Qed.

(** C3 (what the code does).  A non-default plugin component with an
    empty URI is not fetched; its zero-value [DevfileObj] has a nil
    [Data], and the call of [GetDevfileWorkspace] on it panics. *)
Theorem empty_uri_plugin_panics fuel d data before component after plugin :
  Data d = Some data ->
  DevfileData.Parent data = None ->
  Content.Components (DevfileData.Workspace data) = before ++ component :: after ->
  Forall (fun component => Component.Plugin component = None) before ->
  Component.Plugin component = Some plugin ->
  plugin <> PluginComponent.zero ->
  PluginComponent.Uri plugin = "" ->
  parseParentAndPlugin fuel d = Panics.
Proof.
  intros Hd Hp Hcs Hbefore Hplugin Hnz Huri.
  unfold parseParentAndPlugin. rewrite (parseParentAndPlugin_with_eq _ _ _ Hd).
  rewrite Hp, Hcs. unfold flattenParent, ret. clear Hcs.
  assert (Hloop : forall plugins,
    flattenPlugins (ParseFromURL fuel) (before ++ component :: after) plugins = Panics).
  { induction Hbefore as [|c before Hc _ IH]; intros plugins.
    - cbn. unfold pluginOf. rewrite Hplugin, (bool_decide_eq_true_2 _ Hnz).
      unfold flattenPlugin. by rewrite Huri.
    - cbn. unfold pluginOf at 1. rewrite Hc. apply IH. }
  by rewrite Hloop.
Qed.
End ParserProperties.

Section ResolutionOrder.
Context {loader : ContextLoader} {decoder : DocumentDecoder} {api : Overriding}.

Lemma parseParentAndPlugin_with_parent_cleared rec d d' log :
  parseParentAndPlugin_with rec d = Returns (d', None) log ->
  exists data, Data d' = Some data /\ DevfileData.Parent data = None.
Proof.
  intros H. apply parseParentAndPlugin_with_inv in H
    as (data & flattenedParent & perr & l1 & Hd & Hp & H).
  destruct perr as [e|]; [by destruct H|].
  destruct H as (plugins & lerr & l2 & Hl & -> & H).
  destruct lerr as [e|]; [by destruct H|].
  destruct (MergeDevWorkspaceTemplateSpec _ _ _) as [merged|e]; [|by destruct H].
  destruct H as [_ ->]. by eexists.
Qed.

Lemma ParseFromURL_success fuel url d log :
  ParseFromURL fuel url = Returns (d, None) log ->
  (exists data, Data d = Some data /\ DevfileData.Parent data = None) /\
  exists rest, log = url :: rest.
Proof.
  destruct fuel as [|fuel]; [discriminate|].
  rewrite ParseFromURL_S. cbv zeta.
  destruct (PopulateFromURL _) as [ctx [e|]]; [discriminate|].
  destruct (parseDevfile_with _ _ _) as [[d2 e2] l2| |] eqn:Hp; try discriminate.
  intros [= -> -> <-]. split; [|by eexists].
  unfold parseDevfile_with in Hp. destruct (decode _) as [d1 [e|]]; [discriminate|].
  apply bind_Returns in Hp as ([d3 err] & l3 & l4 & Hp & H & _).
  destruct err as [e|]; [discriminate|]. injection H as <- _.
  by eapply parseParentAndPlugin_with_parent_cleared.
Qed.

Lemma pluginLayer_resolved fuel plugin item :
  pluginLayer (ParseFromURL fuel) plugin item -> resolvedPlugin fuel plugin item.
Proof.
  intros (Huri & pluginData & data & Hparse & Hdata & Ho). split; [done|].
  destruct (ParseFromURL_success _ _ _ _ Hparse) as [(data' & Hdata' & Hnone) [rest Hrest]].
  rewrite Hdata in Hdata'. injection Hdata' as <-.
  by exists pluginData, data, rest.
Qed.

End ResolutionOrder.

Section NoReference.
Context {loader : ContextLoader} {decoder : DocumentDecoder} {api : Overriding}.

(** C1.  When flattening succeeds the document has no parent any more,
    and its content is the merge of the local content with the resolved
    parent layer and with the layers of its non-default plugin
    components, each fetched from the plugin's URI and flattened in its
    turn.  These layers take the place of the plugin components: every
    component of a plugin's layer is a component of the flattened
    document, and none of its components is of the Plugin variant.  The
    override and merge functions of the API library enter the last two
    parts through their contracts: the merge keeps the components of the
    inherited layers; an override of plugin-free content is plugin-free,
    and the merge of plugin-free inherited layers with the local content
    is plugin-free (it drops the local plugin components). *)
Theorem flattening_leaves_no_reference fuel d data d' log :
  Data d = Some data ->
  parseParentAndPlugin fuel d = Returns (d', None) log ->
  exists data' flattenedParent parentLog items,
    Data d' = Some data' /\
    DevfileData.GetParent data' = None /\
    flattenParent (ParseFromURL fuel) (DevfileData.Parent data)
      = Returns (flattenedParent, None) parentLog /\
    Forall2 (resolvedPlugin fuel)
      (pluginsOf (Content.Components (DevfileData.Workspace data))) items /\
    MergeDevWorkspaceTemplateSpec (DevfileData.Workspace data) flattenedParent items.*1
      = OK (DevfileData.GetDevfileWorkspace data') /\
    (MergeKeepsInherited ->
     forall item component,
       item ∈ items ->
       component ∈ Content.Components item.1 ->
       component ∈ Content.Components (DevfileData.GetDevfileWorkspace data')) /\
    (OverrideKeepsOrdinary -> MergeExpandsPlugins ->
     Forall (fun component => Component.Plugin component = None)
       (Content.Components (DevfileData.GetDevfileWorkspace data'))).
Proof.
  intros Hd H. pose proof H as Hinv.
  apply parseParentAndPlugin_with_inv in Hinv
    as (data0 & flattenedParent & perr & l1 & Hd0 & Hp & Hinv).
  rewrite Hd in Hd0. injection Hd0 as <-.
  destruct perr as [e|]; [by destruct Hinv|].
  destruct Hinv as (plugins & lerr & l2 & Hl & -> & Hinv).
  destruct lerr as [e|]; [by destruct Hinv|].
  destruct (MergeDevWorkspaceTemplateSpec _ _ _) as [merged|e] eqn:Hmerge;
    [|by destruct Hinv].
  destruct Hinv as [_ Hd'].
  apply flattenPlugins_inv in Hl as (items & Hitems & -> & _).
  cbn [app] in Hmerge.
  exists (DevfileData.SetParent None (DevfileData.SetDevfileWorkspace merged data)),
    flattenedParent, l1, items.
  split; [by rewrite Hd'|]. split; [done|]. split; [done|]. split.
  { eapply Forall2_impl; [exact Hitems|]. intros plugin item. apply pluginLayer_resolved. }
  split; [done|]. split.
  - intros Hkeep item component Hitem Hcomponent. cbn.
    apply (Hkeep _ _ _ _ Hmerge). right. exists item.1. split; [|done].
    apply list_elem_of_fmap. by exists item.
  - intros Ho Hm.
    eapply parseParentAndPlugin_with_flattened in H as (data' & Hdata' & _ & Hord); eauto.
    + rewrite Hd' in Hdata'. by injection Hdata' as <-.
    + intros url pd l. by apply ParseFromURL_flattened.
Qed.
End NoReference.

(** ** Fuel: more of it never changes an outcome *)
Lemma refines_refl {A} (m : Run A) : refines m m.
Proof. by right. Qed.

Lemma bind_refines {A B} (m1 m2 : Run A) (k1 k2 : A -> Run B) :
  refines m1 m2 -> (forall a, refines (k1 a) (k2 a)) ->
  refines (m1 ≫= k1) (m2 ≫= k2).
Proof.
  unfold refines, mbind, Run_bind, bind. intros [-> | ->] Hk; [by left|].
  destruct m2 as [a l| |]; [|by right..].
  destruct (Hk a) as [-> | ->]; [by left|by right].
Qed.

Section Fuel.
Context {loader : ContextLoader} {decoder : DocumentDecoder} {api : Overriding}.

Section Monotone.
Variables short long : string -> Run (DevfileObj * option Error).
Hypothesis Hrec : forall url, refines (short url) (long url).

Lemma flattenParent_refines parent :
  refines (flattenParent short parent) (flattenParent long parent).
Proof.
  unfold flattenParent. destruct parent as [p|]; [|apply refines_refl].
  destruct (_ && _); [|apply refines_refl].
  apply bind_refines; [apply Hrec|]. intros [pd err]. apply refines_refl.
Qed.

Lemma flattenPlugin_refines plugin :
  refines (flattenPlugin short plugin) (flattenPlugin long plugin).
Proof.
  unfold flattenPlugin. apply bind_refines.
  - destruct (bool_decide _); [apply Hrec|apply refines_refl].
  - intros [pd err]. apply refines_refl.
Qed.

Lemma flattenPlugins_refines components plugins :
  refines (flattenPlugins short components plugins)
    (flattenPlugins long components plugins).
Proof.
  revert plugins. induction components as [|component components IH]; intros plugins.
  - apply refines_refl.
  - cbn. destruct (pluginOf component) as [plugin|]; [|apply IH].
    apply bind_refines; [apply flattenPlugin_refines|].
    intros [result [e|]]; [apply refines_refl|apply IH].
Qed.

Lemma parseParentAndPlugin_with_refines d :
  refines (parseParentAndPlugin_with short d) (parseParentAndPlugin_with long d).
Proof.
  unfold parseParentAndPlugin_with.
  apply bind_refines; [apply refines_refl|]. intros parent.
  apply bind_refines; [apply flattenParent_refines|].
  intros [flattenedParent [e|]]; [apply refines_refl|].
  apply bind_refines; [apply refines_refl|].
  intros [components [e|]]; [apply refines_refl|].
  apply bind_refines; [apply flattenPlugins_refines|].
  intros [plugins [e|]]; apply refines_refl.
Qed.

Lemma parseDevfile_with_refines d flattenedDevfile :
  refines (parseDevfile_with short d flattenedDevfile)
    (parseDevfile_with long d flattenedDevfile).
Proof.
  unfold parseDevfile_with. destruct (decode d) as [d1 [e|]]; [apply refines_refl|].
  destruct flattenedDevfile; [|apply refines_refl].
  apply bind_refines; [apply parseParentAndPlugin_with_refines|].
  intros [d2 err]. apply refines_refl.
Qed.
End Monotone.

Lemma ParseFromURL_refines_S fuel url :
  refines (ParseFromURL fuel url) (ParseFromURL (S fuel) url).
Proof.
  revert url. induction fuel as [|fuel IH]; intros url; [by left|].
  rewrite (ParseFromURL_S (S fuel)), (ParseFromURL_S fuel). cbv zeta.
  destruct (PopulateFromURL _) as [ctx [e|]]; [apply refines_refl|].
  destruct (parseDevfile_with_refines _ _ IH
              (withCtx (withCtx zeroDevfileObj (NewURLDevfileCtx url)) ctx) true)
    as [-> | ->]; [by left|by right].
Qed.

Lemma ParseFromURL_refines n m url :
  n <= m -> refines (ParseFromURL n url) (ParseFromURL m url).
Proof.
  induction 1 as [|m _ IH]; [apply refines_refl|].
  destruct IH as [-> | ->]; [by left|]. apply ParseFromURL_refines_S.
Qed.

Lemma parseParentAndPlugin_refines n m d :
  n <= m -> refines (parseParentAndPlugin n d) (parseParentAndPlugin m d).
Proof.
  intros Hnm. apply parseParentAndPlugin_with_refines.
  intros url. by apply ParseFromURL_refines.
Qed.
End Fuel.

(** ** Termination *)
Section Termination.
Context {loader : ContextLoader} {decoder : DocumentDecoder} {api : Overriding}.

Lemma acyclicWithin_S n url :
  acyclicWithin n url = true -> acyclicWithin (S n) url = true.
Proof.
  revert url. induction n as [|n IH]; intros url; cbn; destruct (loaded url) as [data|];
    try done.
  intros H. apply forallb_forall. intros u Hu.
  apply IH. by eapply (proj1 (forallb_forall _ _) H).
Qed.

Section Generic.
Variable rec : string -> Run (DevfileObj * option Error).

Lemma flattenParent_terminates data :
  (forall u, u ∈ parentReference data -> rec u <> OutOfFuel) ->
  flattenParent rec (DevfileData.Parent data) <> OutOfFuel.
Proof.
  unfold flattenParent, parentReference. intros Hrec H.
  destruct (DevfileData.Parent data) as [p|]; [|discriminate].
  destruct (_ && _); [|discriminate].
  apply bind_OutOfFuel in H as [H|([pd err] & l & _ & H)].
  - revert H. apply Hrec. left.
  - destruct err as [e|]; [discriminate|].
    apply bind_OutOfFuel in H as [H|(c & l' & _ & H)].
    + by apply call_not_OutOfFuel in H.
    + destruct (bool_decide _); [|discriminate].
      by destruct (OverrideDevWorkspaceTemplateSpec _ _).
Qed.

Lemma flattenPlugin_terminates plugin :
  (PluginComponent.Uri plugin <> "" -> rec (PluginComponent.Uri plugin) <> OutOfFuel) ->
  flattenPlugin rec plugin <> OutOfFuel.
Proof.
  unfold flattenPlugin. intros Hrec H.
  apply bind_OutOfFuel in H as [H|([pd err] & l & _ & H)].
  - destruct (bool_decide _) eqn:Huri; [|discriminate].
    apply bool_decide_eq_true in Huri. by apply Hrec.
  - destruct err as [e|]; [discriminate|].
    apply bind_OutOfFuel in H as [H|(c & l' & _ & H)].
    + by apply call_not_OutOfFuel in H.
    + destruct (bool_decide _); [|discriminate].
      by destruct (OverrideDevWorkspaceTemplateSpec _ _).
Qed.

Lemma flattenPlugins_terminates components plugins :
  (forall u, u ∈ filter (fun uri => uri <> "")
                   (PluginComponent.Uri <$> pluginsOf components) ->
             rec u <> OutOfFuel) ->
  flattenPlugins rec components plugins <> OutOfFuel.
Proof.
  revert plugins. induction components as [|component components IH];
    intros plugins Hrec; [discriminate|].
  cbn. unfold pluginsOf in Hrec. cbn in Hrec.
  destruct (pluginOf component) as [plugin|]; cbn in Hrec; [|by apply IH].
  intros H. apply bind_OutOfFuel in H as [H|([result err] & l & _ & H)].
  - revert H. apply flattenPlugin_terminates. intros Huri. apply Hrec.
    destruct (decide _); [left|done].
  - destruct err as [e|]; [discriminate|]. revert H. apply IH.
    intros u Hu. apply Hrec. destruct (decide _); [by right|done].
Qed.

Lemma parseParentAndPlugin_with_terminates d :
  (forall data u, Data d = Some data -> u ∈ references data -> rec u <> OutOfFuel) ->
  parseParentAndPlugin_with rec d <> OutOfFuel.
Proof.
  intros Hrec. destruct (Data d) as [data|] eqn:Hd.
  - rewrite (parseParentAndPlugin_with_eq _ _ _ Hd).
    pose proof (flattenParent_terminates data) as Hp.
    pose proof (flattenPlugins_terminates
                  (Content.Components (DevfileData.Workspace data)) []) as Hl.
    destruct (flattenParent rec _) as [[fp [e|]] l1| |]; try discriminate.
    + destruct (flattenPlugins rec _ _) as [[plugins [e|]] l2| |]; try discriminate.
      * by destruct (MergeDevWorkspaceTemplateSpec _ _ _).
      * intros _. apply Hl; [|done]. intros u Hu. apply (Hrec data); [done|].
        apply elem_of_app. by right.
    + intros _. apply Hp; [|done]. intros u Hu. apply (Hrec data); [done|].
      apply elem_of_app. by left.
  - unfold parseParentAndPlugin_with. by rewrite Hd.
Qed.

Lemma parseDevfile_with_terminates d :
  (forall d1 data u,
     decode d = (d1, None) -> Data d1 = Some data -> u ∈ references data ->
     rec u <> OutOfFuel) ->
  parseDevfile_with rec d true <> OutOfFuel.
Proof.
  unfold parseDevfile_with. intros Hrec H.
  destruct (decode d) as [d1 [e|]] eqn:Hdec; [discriminate|].
  apply bind_OutOfFuel in H as [H|([d2 err] & l & _ & H)].
  - revert H. apply parseParentAndPlugin_with_terminates.
    intros data u. by apply Hrec.
  - by destruct err.
Qed.
End Generic.

Lemma ParseFromURL_terminates_step n url :
  (forall data u,
     loaded url = Some data -> u ∈ references data -> ParseFromURL n u <> OutOfFuel) ->
  ParseFromURL (S n) url <> OutOfFuel.
Proof.
  intros Hrec. rewrite ParseFromURL_S. cbv zeta.
  destruct (PopulateFromURL _) as [ctx [e|]] eqn:Hpop; [discriminate|].
  pose proof (parseDevfile_with_terminates (ParseFromURL n)
                (withCtx (withCtx zeroDevfileObj (NewURLDevfileCtx url)) ctx)) as Hterm.
  destruct (parseDevfile_with _ _ _); try discriminate.
  intros _. apply Hterm; [|done]. intros d1 data u Hdec Hd Hu.
  apply (Hrec data); [|done].
  unfold loaded. cbv zeta. by rewrite Hpop, Hdec.
Qed.

Lemma ParseFromURL_terminates n url :
  acyclicWithin n url = true -> ParseFromURL (S n) url <> OutOfFuel.
Proof.
  revert url. induction n as [|n IH]; intros url Hacyclic;
    apply ParseFromURL_terminates_step; intros data u Hloaded Hu;
    cbn in Hacyclic; rewrite Hloaded in Hacyclic; [discriminate|].
  apply IH. eapply (proj1 (forallb_forall _ _) Hacyclic). by apply list_elem_of_In.
Qed.

Lemma parent_cycle_diverges (C : string -> Prop) :
  parentClosed C -> forall fuel url, C url -> ParseFromURL fuel url = OutOfFuel.
Proof.
  intros Hclosed. induction fuel as [|fuel IH]; intros url Hurl; [done|].
  destruct (Hclosed url Hurl) as (data & parent & Hloaded & Hparent & Huri & Hnext).
  rewrite ParseFromURL_S. cbv zeta. unfold loaded in Hloaded. cbv zeta in Hloaded.
  destruct (PopulateFromURL _) as [ctx [e|]]; [discriminate|].
  unfold parseDevfile_with. destruct (decode _) as [d1 [e|]]; [discriminate|].
  rewrite (parseParentAndPlugin_with_eq _ _ _ Hloaded), Hparent.
  assert (Hnz : parent <> Parent.zero) by (intros ->; by apply Huri).
  unfold flattenParent.
  rewrite (bool_decide_eq_true_2 _ Hnz), (bool_decide_eq_true_2 _ Huri).
  by rewrite (IH _ Hnext).
Qed.

(** C9.  The recursion is bounded by the reference structure of the
    input alone.  A document whose references lead, through parents and
    plugins, to an acyclic graph at most [n] documents deep is resolved
    with the same outcome by every run that is allowed more than [n]
    levels of recursion.  There is no guard: on a cycle of parent
    references every level of recursion opens the next one, so no bound
    on the depth is ever enough, for [ParseFromURL] on a URI of the
    cycle and for parseParentAndPlugin on a document whose parent is on
    it. *)
Theorem recursion_bounded_by_references :
  (forall n d data,
     Data d = Some data ->
     forallb (acyclicWithin n) (references data) = true ->
     exists outcome,
       outcome <> OutOfFuel /\
       forall fuel, n < fuel -> parseParentAndPlugin fuel d = outcome) /\
  (forall C : string -> Prop,
     parentClosed C ->
     forall url, C url ->
     forall fuel,
       ParseFromURL fuel url = OutOfFuel /\
       (forall d data parent,
          Data d = Some data ->
          DevfileData.Parent data = Some parent ->
          Parent.Uri parent = url -> url <> "" ->
          parseParentAndPlugin fuel d = OutOfFuel)).
Proof.
  split.
  - intros n d data Hd Hrefs.
    assert (Hterm : parseParentAndPlugin (S n) d <> OutOfFuel).
    { apply parseParentAndPlugin_with_terminates. intros data' u Hd' Hu.
      rewrite Hd in Hd'. injection Hd' as <-.
      apply ParseFromURL_terminates.
      apply (proj1 (forallb_forall _ _) Hrefs). by apply list_elem_of_In. }
    exists (parseParentAndPlugin (S n) d). split; [done|].
    intros fuel Hfuel.
    destruct (parseParentAndPlugin_refines (S n) fuel d) as [H|H]; [lia|done|done].
  - intros C Hclosed url Hurl fuel. split; [by eapply parent_cycle_diverges|].
    intros d data parent Hd Hparent Huri Hne. subst url.
    unfold parseParentAndPlugin.
    rewrite (parseParentAndPlugin_with_eq _ _ _ Hd), Hparent.
    assert (Hnz : parent <> Parent.zero) by (intros ->; by apply Hne).
    unfold flattenParent.
    rewrite (bool_decide_eq_true_2 _ Hnz), (bool_decide_eq_true_2 _ Hne).
    by rewrite (parent_cycle_diverges C Hclosed fuel _ Hurl).
Qed.
End Termination.

(** ** The sync folder *)
Section SyncFolder.
Import Generator.
Variable EnvProjectsSrc : string.

Lemma Contains_nonempty s : Contains s ".." = true -> s <> "".
Proof. by destruct s. Qed.

Lemma HasPrefix_nonempty s : HasPrefix s "/" = true -> s <> "".
Proof. by destruct s. Qed.

(** C8.  With at least one project, addSyncFolder looks at the first
    one: a clonePath that starts with a slash and a clonePath that
    contains [..] are rejected, the container is left as it was and the
    error names the clonePath and the project; a valid clonePath gives
    the source root joined with it, [/projects/src] for [src] under
    [/projects]; without clonePath the folder is the source root joined
    with the name of the project. *)
Theorem clonePath_rules container sourceVolumePath project rest :
  (HasPrefix (Project.ClonePath project) "/" = true ->
   addSyncFolder EnvProjectsSrc container sourceVolumePath (project :: rest)
     = (container, Some (relativePathError project))) /\
  (HasPrefix (Project.ClonePath project) "/" = false ->
   Contains (Project.ClonePath project) ".." = true ->
   addSyncFolder EnvProjectsSrc container sourceVolumePath (project :: rest)
     = (container, Some (escapePathError project))) /\
  (exists text1 text2 text3,
     relativePathError project
       = text1 +:+ Project.ClonePath project +:+ text2 +:+ Project.Name project +:+ text3) /\
  (exists text1 text2 text3,
     escapePathError project
       = text1 +:+ Project.ClonePath project +:+ text2 +:+ Project.Name project +:+ text3) /\
  (Project.ClonePath project <> "" ->
   HasPrefix (Project.ClonePath project) "/" = false ->
   Contains (Project.ClonePath project) ".." = false ->
   addSyncFolder EnvProjectsSrc container sourceVolumePath (project :: rest)
     = (Container.appendEnv container
          {| EnvVar.Name := EnvProjectsSrc;
             EnvVar.Value := Join [sourceVolumePath; Project.ClonePath project] |}, None)) /\
  (Project.ClonePath project = "" ->
   addSyncFolder EnvProjectsSrc container sourceVolumePath (project :: rest)
     = (Container.appendEnv container
          {| EnvVar.Name := EnvProjectsSrc;
             EnvVar.Value := Join [sourceVolumePath; Project.Name project] |}, None)) /\
  Join ["/projects"; "src"] = "/projects/src".
Proof.
  unfold addSyncFolder, syncFolder, ToSlash. repeat split.
  - intros Hp. rewrite (bool_decide_eq_true_2 _ (HasPrefix_nonempty _ Hp)). by rewrite Hp.
  - intros Hp Hc. rewrite (bool_decide_eq_true_2 _ (Contains_nonempty _ Hc)).
    by rewrite Hp, Hc.
  - by eexists _, _, _.
  - unfold escapePathError. eexists _, _, _. reflexivity.
  - intros Hne Hp Hc. by rewrite (bool_decide_eq_true_2 _ Hne), Hp, Hc.
  - intros ->. reflexivity.
Qed.
End SyncFolder.

(** ** The properties at work on the example world *)

Lemma flattening_leaves_no_reference_witness :
  exists d' log data',
    Example.flatten 2 Example.docR = Returns (d', None) log /\
    Data d' = Some data' /\
    DevfileData.GetParent data' = None /\
    Example.container "b" "img-b"
      ∈ Content.Components (DevfileData.GetDevfileWorkspace data') /\
    Forall (fun component => Component.Plugin component = None)
      (Content.Components (DevfileData.GetDevfileWorkspace data')).
Proof.
  destruct (@flattening_leaves_no_reference Example.loader Example.decoder SpecApi.api
              2 Example.docR _ _ _ eq_refl eq_refl)
    as (data' & flattenedParent & parentLog & items
        & Hdata & Hparent & _ & Hitems & _ & Hkeeps & Hplugins).
  eexists _, _, data'. split; [reflexivity|]. split; [exact Hdata|]. split; [exact Hparent|].
  split.
  - inversion Hitems as [|plugin item plugins rest Hitem Hrest]; subst.
    destruct Hitem as (_ & pluginData & dataQ & fetched & Hparse & _ & Hq & _ & Hover).
    apply (Hkeeps SpecApi_merge_keeps_inherited item); [left|].
    injection Hparse as <- _. injection Hq as <-.
    unfold overridden in Hover. cbn in Hover. rewrite Hover. left.
  - apply Hplugins.
    + apply SpecApi_override_keeps_ordinary.
    + apply SpecApi_merge_expands_plugins.
Defined.

Lemma merge_collision_policy_witness :
  (exists err, SpecApi.Merge Example.localA Example.parentA [] = Fail err) /\
  (exists err,
     SpecApi.Merge Example.localPluginA Example.parentA [Example.layerB] = Fail err) /\
  Example.flatten 2 Example.docClash
    = Returns (Example.docClash, Some "conflicting definitions of a") (["P"] ++ []) /\
  (Example.container "c" "img-c"
     ∈ Content.Components
         {| Content.Components := [Example.container "a" "img-a"; Example.container "c" "img-c"];
            Content.Commands := [];
            Content.Projects := [] |}).
Proof.
  split; [|split; [|split]].
  - apply (proj1 (proj2 (merge_collision_policy Example.localA Example.parentA []))).
    left. intros Hagree.
    specialize (Hagree 0 1 [Example.container "a" "img-a"]
                  [Example.container "a" "img-local"]
                  (Example.container "a" "img-a") (Example.container "a" "img-local")).
    discriminate Hagree; try reflexivity; try lia; by left.
  - apply (proj1 (proj2 (merge_collision_policy Example.localPluginA Example.parentA
                           [Example.layerB]))).
    left. intros Hagree.
    specialize (Hagree 0 2 [Example.container "a" "img-a"]
                  [Example.pluginRef "a" "Q" ""; Example.container "c" "img-c"]
                  (Example.container "a" "img-a") (Example.pluginRef "a" "Q" "")).
    discriminate Hagree; try reflexivity; try lia; by left.
  - eapply (proj2 (proj2 (merge_collision_policy Example.localA Example.parentA []))
              Example.loader Example.decoder 2 Example.docClash); reflexivity.
  - refine (proj1 (proj1 (proj2 (proj1
              (merge_collision_policy
                 {| Content.Components := [Example.container "c" "img-c"];
                    Content.Commands := [];
                    Content.Projects := [] |}
                 Example.parentA []) _ eq_refl))
              (Example.container "c" "img-c") (Example.container "c" "img-c") _) eq_refl).
    by left.
Defined.

Lemma empty_uri_plugin_panics_witness : Example.flatten 1 Example.docById = Panics.
Proof.
  eapply (@empty_uri_plugin_panics Example.loader Example.decoder SpecApi.api
            1 Example.docById _ [Example.container "c" "img-c"] _ []).
  - reflexivity.
  - reflexivity.
  - reflexivity.
  - by repeat constructor.
  - reflexivity.
  - discriminate.
  - reflexivity.
Defined.

Lemma flatten_failure_resets_witness :
  @parseDevfile Example.loader Example.decoder SpecApi.api 1 (Example.obj "orphan" None) true
    = Returns (zeroDevfileObj, Some "failed to retrieve missing") ["missing"].
Proof.
  eapply (proj2 (@flatten_failure_resets Example.loader Example.decoder SpecApi.api 0)
            (Example.obj "orphan" None) Example.docOrphan _ (Example.parentRef "missing")).
  - reflexivity.
  - reflexivity.
  - reflexivity.
  - discriminate.
  - reflexivity.
Defined.


Lemma flat_document_unchanged_witness :
  Example.flatten 0 Example.docP = Returns (Example.docP, None) [].
Proof.
  eapply (@flat_document_unchanged Example.loader Example.decoder SpecApi.api 0 Example.docP).
  - apply SpecApi_merge_neutral.
  - reflexivity.
  - reflexivity.
  - by repeat constructor.
Defined.

Lemma raw_mode_never_fetches_witness :
  exists d err,
    @ParseRawDevfile Example.loader Example.decoder SpecApi.api 0 "R" = Returns (d, err) [] /\
    (err = None ->
     exists ctx,
       @Populate Example.loader ("R" : @DevfileCtx Example.loader) = (ctx, None) /\
       Data d = (@Unmarshal Example.decoder (@GetDevfileContent Example.loader ctx)
                   (@NewDevfileData Example.decoder (@GetApiVersion Example.loader ctx)).1).1).
Proof.
  exact (proj2 (@raw_mode_never_fetches Example.loader Example.decoder SpecApi.api) 0 "R").
Defined.

Lemma recursion_bounded_by_references_witness :
  (exists outcome,
     outcome <> OutOfFuel /\
     forall fuel, 1 < fuel -> Example.flatten fuel Example.docR = outcome) /\
  (forall fuel, Example.parse fuel "loop" = OutOfFuel).
Proof.
  split.
  - eapply (proj1 (@recursion_bounded_by_references
                     Example.loader Example.decoder SpecApi.api) 1 Example.docR).
    + reflexivity.
    + reflexivity.
  - intros fuel.
    eapply (proj1 (proj2 (@recursion_bounded_by_references
                            Example.loader Example.decoder SpecApi.api)
                     (fun url => url = "loop") _ "loop" eq_refl fuel)).
    Unshelve.
    intros url ->. exists (Example.document (Some (Example.parentRef "loop")) []),
      (Example.parentRef "loop"). by repeat split.
Defined.

Lemma flattening_is_atomic_witness :
  exists d' err log,
    Example.flatten 1 Example.docOrphan = Returns (d', Some err) log /\
    d' = Example.docOrphan /\ Data d' = Data Example.docOrphan.
Proof.
  eexists _, _, _. split; [reflexivity|].
  eapply (@flattening_is_atomic Example.loader Example.decoder SpecApi.api 1 Example.docOrphan).
  reflexivity.
Defined.

Lemma clonePath_rules_witness :
  Generator.addSyncFolder "PROJECT_SOURCE" Example.holder "/projects"
    [Example.project "myproj" "/abs/path"]
    = (Example.holder,
       Some (Generator.relativePathError (Example.project "myproj" "/abs/path"))) /\
  Generator.addSyncFolder "PROJECT_SOURCE" Example.holder "/projects"
    [Example.project "myproj" "a/../b"]
    = (Example.holder,
       Some (Generator.escapePathError (Example.project "myproj" "a/../b"))) /\
  Generator.addSyncFolder "PROJECT_SOURCE" Example.holder "/projects"
    [Example.project "myproj" "src"]
    = (Generator.Container.appendEnv Example.holder
         {| Generator.EnvVar.Name := "PROJECT_SOURCE";
            Generator.EnvVar.Value := Generator.Join ["/projects"; "src"] |}, None) /\
  Generator.addSyncFolder "PROJECT_SOURCE" Example.holder "/projects"
    [Example.project "myproj" ""]
    = (Generator.Container.appendEnv Example.holder
         {| Generator.EnvVar.Name := "PROJECT_SOURCE";
            Generator.EnvVar.Value := Generator.Join ["/projects"; "myproj"] |}, None).
Proof.
  split; [|split; [|split]].
  - apply (proj1 (clonePath_rules "PROJECT_SOURCE" Example.holder "/projects"
                    (Example.project "myproj" "/abs/path") [])).
    reflexivity.
  - apply (proj1 (proj2 (clonePath_rules "PROJECT_SOURCE" Example.holder "/projects"
                           (Example.project "myproj" "a/../b") []))); reflexivity.
  - apply (proj1 (proj2 (proj2 (proj2 (proj2
             (clonePath_rules "PROJECT_SOURCE" Example.holder "/projects"
                (Example.project "myproj" "src") [])))))); [discriminate|reflexivity..].
  - apply (proj1 (proj2 (proj2 (proj2 (proj2 (proj2
             (clonePath_rules "PROJECT_SOURCE" Example.holder "/projects"
                (Example.project "myproj" "") []))))))).
    reflexivity.
Defined.

(** ** More of the generator *)
Lemma fold_left_snoc {A B} (f : A -> B) (l : list A) (init : list B) :
  fold_left (fun acc x => acc ++ [f x]) l init = init ++ map f l.
Proof.
  revert init. induction l as [|x l IH]; intros init; cbn.
  - by rewrite app_nil_r.
  - by rewrite IH, <- app_assoc.
Qed.

Lemma int32_range x :
  (- 2 ^ 31 <= Generator.int32 x < 2 ^ 31)%Z.
Proof.
  unfold Generator.int32.
  pose proof (Z.mod_pos_bound (x + 2 ^ 31) (2 ^ 32) ltac:(lia)). lia.
Qed.

Lemma int32_small x :
  (- 2 ^ 31 <= x < 2 ^ 31)%Z -> Generator.int32 x = x.
Proof.
  intros Hx. unfold Generator.int32. rewrite Z.mod_small by lia. lia.
Qed.

Section GeneratorProperties.
Import Generator.

(** addSyncFolder touches nothing but the environment of the container,
    to which it appends one variable, the one named by [EnvProjectsSrc];
    on an error the container is as it was.  It cannot fail without a
    project, and only the first project counts: the projects after it are
    neither used nor checked. *)
Theorem addSyncFolder_frame EnvProjectsSrc container sourceVolumePath projects :
  let result := addSyncFolder EnvProjectsSrc container sourceVolumePath projects in
  Container.Name result.1 = Container.Name container /\
  Container.Image result.1 = Container.Image container /\
  (forall err, result.2 = Some err -> result.1 = container /\ projects <> []) /\
  (result.2 = None ->
   exists folder,
     Container.Env result.1
       = Container.Env container
           ++ [{| EnvVar.Name := EnvProjectsSrc; EnvVar.Value := folder |}]) /\
  result = addSyncFolder EnvProjectsSrc container sourceVolumePath (take 1 projects).
Proof.
  unfold addSyncFolder. cbv zeta.
  replace (syncFolder sourceVolumePath (take 1 projects))
    with (syncFolder sourceVolumePath projects) by (by destruct projects).
  destruct (syncFolder sourceVolumePath projects) as [folder|e] eqn:Hf; cbn.
  - split; [done|]. split; [done|]. split; [by intros err|].
    split; [|done]. intros _. by exists folder.
  - split; [done|]. split; [done|]. split; [|by split].
    intros err _. split; [done|]. by intros ->.
Qed.

(** The source root is entered as [EnvProjectsRoot]: the source mapping
    when there is one, the default mount otherwise.  Without projects
    addSyncFolder then enters the same folder for [EnvProjectsSrc], after
    it, and the variables the container had stay in front. *)
Theorem sync_root_then_sync_folder mount EnvProjectsRoot EnvProjectsSrc
  container sourceMapping :
  let '(rooted, folder) :=
    addSyncRootFolder mount EnvProjectsRoot container sourceMapping in
  folder = (if bool_decide (sourceMapping = "") then mount else sourceMapping) /\
  exists final,
    addSyncFolder EnvProjectsSrc rooted folder [] = (final, None) /\
    Container.Env final
      = Container.Env container
          ++ [{| EnvVar.Name := EnvProjectsRoot; EnvVar.Value := folder |};
              {| EnvVar.Name := EnvProjectsSrc; EnvVar.Value := folder |}].
Proof.
  unfold addSyncRootFolder, addSyncFolder. cbn. split.
  - destruct (decide (sourceMapping = "")) as [Heq|Hne].
    + rewrite (bool_decide_eq_true_2 _ Heq). by rewrite bool_decide_eq_false_2 by auto.
    + rewrite (bool_decide_eq_false_2 _ Hne). by rewrite bool_decide_eq_true_2.
  - eexists. split; [reflexivity|]. cbn. by rewrite <- app_assoc.
Qed.

(** convertEnvs keeps every variable, in the order given, with its name
    and its value, and loses nothing: two lists with one conversion are
    one list. *)
Theorem convertEnvs_lossless vars :
  length (convertEnvs vars) = length vars /\
  (forall i,
     convertEnvs vars !! i
       = (fun env => {| EnvVar.Name := DevfileEnvVar.Name env;
                        EnvVar.Value := DevfileEnvVar.Value env |}) <$> vars !! i) /\
  (forall others, convertEnvs vars = convertEnvs others -> vars = others).
Proof.
  unfold convertEnvs. rewrite fold_left_snoc. cbn. split; [by rewrite length_map|].
  split; [intros i; by rewrite list_lookup_fmap|].
  intros others. rewrite fold_left_snoc. cbn. revert others.
  induction vars as [|[n v] vars IH]; intros [|[n' v'] others]; cbn; try done.
  intros [= -> -> H]. by rewrite (IH _ H).
Qed.
End GeneratorProperties.

Section ResourceProperties.
Import Generator.
Variable Quantity : Type.
Variable ParseQuantity : string -> Result Quantity.

(** getResourceReqs never sets requests, and sets limits only for a
    container component with a memory limit: the limits then hold the
    parsed quantity under [memory] and nothing else, and are an empty,
    non-nil map when the limit does not parse; the parse error is not
    reported. *)
Theorem getResourceReqs_limits comp :
  let reqs := getResourceReqs Quantity ParseQuantity comp in
  Requests Quantity reqs = None /\
  match Limits Quantity reqs with
  | None =>
      forall container,
        Component.Container comp = Some container ->
        ContainerComponent.MemoryLimit container = ""
  | Some limits =>
      exists container,
        Component.Container comp = Some container /\
        ContainerComponent.MemoryLimit container <> "" /\
        (forall name, name <> ResourceMemory -> limits !! name = None) /\
        limits !! ResourceMemory
          = match ParseQuantity (ContainerComponent.MemoryLimit container) with
            | OK memoryLimit => Some memoryLimit
            | Fail _ => None
            end
  end.
Proof.
  unfold getResourceReqs. cbv zeta.
  destruct (Component.Container comp) as [container|]; [|by split].
  destruct (decide (ContainerComponent.MemoryLimit container = "")) as [Heq|Hne].
  - rewrite bool_decide_eq_false_2 by auto. cbn. split; [done|]. by intros c [= <-].
  - rewrite (bool_decide_eq_true_2 _ Hne). cbn. split; [done|].
    exists container. split; [done|]. split; [done|].
    destruct (ParseQuantity _) as [q|e].
    + split; [|by rewrite lookup_insert_eq].
      intros name Hname. by rewrite lookup_insert_ne.
    + by split.
Qed.
End ResourceProperties.

Section PortProperties.
Import Generator.
Variable GetDNS1123Name : string -> string.
Variable TruncateString : string -> Z -> string.
Variable ToLower : string -> string.
Variable TrimSpace : string -> string.

Lemma convertPorts_map endpoints :
  convertPorts GetDNS1123Name TruncateString ToLower TrimSpace endpoints
  = map (fun endpoint =>
           {| ContainerPort.Name :=
                TruncateString
                  (TrimSpace (GetDNS1123Name (ToLower (Endpoint.Name endpoint)))) 15;
              ContainerPort.ContainerPort := int32 (Endpoint.TargetPort endpoint) |})
      endpoints.
Proof. unfold convertPorts. by rewrite fold_left_snoc. Qed.

Lemma getServiceSpec_ports params :
  ServiceSpec.Ports (getServiceSpec params)
  = map (fun containerPort =>
           {| ServicePort.Name := ContainerPort.Name containerPort;
              ServicePort.Port := ContainerPort.ContainerPort containerPort;
              ServicePort.TargetPort :=
                IntOrString.FromInt (ContainerPort.ContainerPort containerPort) |})
      (serviceSpecParams.ContainerPorts params).
Proof. unfold getServiceSpec. cbn. by rewrite fold_left_snoc. Qed.

(** From endpoints to service ports: convertPorts followed by
    getServiceSpec gives one service port for each endpoint, in order,
    under the name of the container port; its port is the target port
    of the endpoint cut to 32 bits, which is the target port itself when
    that fits, and its target is that same port as an integer; the
    selector is the one given. *)
Theorem service_ports_follow_endpoints labels endpoints :
  let containerPorts :=
    convertPorts GetDNS1123Name TruncateString ToLower TrimSpace endpoints in
  let spec :=
    getServiceSpec {| serviceSpecParams.SelectorLabels := labels;
                      serviceSpecParams.ContainerPorts := containerPorts |} in
  ServiceSpec.Selector spec = labels /\
  map ServicePort.Name (ServiceSpec.Ports spec) = map ContainerPort.Name containerPorts /\
  map ServicePort.Port (ServiceSpec.Ports spec)
    = map (fun endpoint => int32 (Endpoint.TargetPort endpoint)) endpoints /\
  Forall (fun port =>
            ServicePort.TargetPort port
              = {| IntOrString.Type_ := IntOrString.Int;
                   IntOrString.IntVal := ServicePort.Port port;
                   IntOrString.StrVal := "" |})
    (ServiceSpec.Ports spec) /\
  (Forall (fun endpoint => (- 2 ^ 31 <= Endpoint.TargetPort endpoint < 2 ^ 31)%Z) endpoints ->
   map ServicePort.Port (ServiceSpec.Ports spec) = map Endpoint.TargetPort endpoints).
Proof.
  cbv zeta. rewrite getServiceSpec_ports, convertPorts_map. cbn.
  rewrite !map_map. cbn.
  split; [done|]. split; [done|]. split; [done|]. split.
  - apply Forall_forall. intros port Hport.
    apply list_elem_of_fmap in Hport as (endpoint & -> & _). cbn.
    unfold IntOrString.FromInt. f_equal. apply int32_small, int32_range.
  - intros Hfit. induction Hfit as [|endpoint endpoints Hfit _ IH]; [done|].
    cbn. by rewrite IH, int32_small.
Qed.
End PortProperties.

(** ** A clonePath that is accepted stays below the source root *)
Section PathProperties.
Import Generator.

Lemma rev_app_append s1 s2 t :
  String.rev_app s1 s2 +:+ t = String.rev_app s1 (s2 +:+ t).
Proof. revert s2. induction s1 as [|a s1 IH]; intros s2; cbn; [done|]. by rewrite IH. Qed.

Lemma append_cons a (s t : string) : String a s +:+ t = String a (s +:+ t).
Proof. reflexivity. Qed.

Lemma append_assoc (s1 s2 s3 : string) : (s1 +:+ s2) +:+ s3 = s1 +:+ s2 +:+ s3.
Proof. induction s1 as [|a s1 IH]; [done|]. by rewrite !append_cons, IH. Qed.

Lemma prefix_append e post : String.prefix e (e +:+ post) = true.
Proof.
  induction e as [|a e IH].
  - change (String.prefix "" post = true). by destruct post.
  - rewrite append_cons. cbn. destruct (ascii_dec a a); [exact IH|congruence].
Qed.

Lemma Contains_unfold s substr :
  Contains s substr
  = String.prefix substr s ||
    match s with
    | EmptyString => false
    | String _ s => Contains s substr
    end.
Proof. by destruct s. Qed.

Lemma Contains_infix pre e post : Contains (pre +:+ e +:+ post) e = true.
Proof.
  induction pre as [|a pre IH].
  - change (Contains (e +:+ post) e = true).
    by rewrite Contains_unfold, prefix_append.
  - rewrite append_cons, Contains_unfold. by rewrite IH, orb_true_r.
Qed.

Lemma splitPath_infix cur path e :
  e ∈ splitPath cur path ->
  exists pre post, String.rev cur +:+ path = pre +:+ e +:+ post.
Proof.
  revert cur. induction path as [|c path IH]; intros cur; cbn.
  - intros ->%list_elem_of_singleton. by exists "", "".
  - destruct (Ascii.eqb c Separator).
    + intros [->|He]%elem_of_cons.
      * by exists "", (String c path).
      * destruct (IH _ He) as (pre & post & Heq).
        change (path = pre +:+ e +:+ post) in Heq.
        exists (String.rev cur +:+ String c pre), post.
        by rewrite append_assoc, append_cons, <- Heq.
    + intros He. destruct (IH _ He) as (pre & post & Heq).
      exists pre, post. rewrite <- Heq. unfold String.rev. cbn.
      by rewrite !rev_app_append.
Qed.

Lemma splitPath_no_dotdot path :
  Contains path ".." = false -> Forall (fun e => e <> "..") (splitPath "" path).
Proof.
  intros Hno. apply Forall_forall. intros e He ->.
  destruct (splitPath_infix _ _ _ He) as (pre & post & Heq).
  change (path = pre +:+ ".." +:+ post) in Heq.
  by rewrite Heq, Contains_infix in Hno.
Qed.

Lemma splitPath_append cur a b :
  splitPath cur (a +:+ String Separator b) = splitPath cur a ++ splitPath "" b.
Proof.
  revert cur. induction a as [|c a IH]; intros cur.
  - change (splitPath cur (String Separator b) = splitPath cur "" ++ splitPath "" b).
    reflexivity.
  - rewrite append_cons. cbn. destruct (Ascii.eqb c Separator); by rewrite IH.
Qed.

Lemma cleanElems_app rooted out xs ys :
  cleanElems rooted out (xs ++ ys)
  = cleanElems rooted (rev (cleanElems rooted out xs)) ys.
Proof.
  revert out. induction xs as [|e xs IH]; intros out; cbn.
  - by rewrite rev_involutive.
  - destruct (bool_decide (e = "") || bool_decide (e = ".")); [apply IH|].
    destruct (bool_decide (e = "..")); [|apply IH].
    destruct out as [|top below]; [destruct rooted; apply IH|].
    destruct (bool_decide (top = "..")); apply IH.
Qed.

Lemma cleanElems_kept rooted out ys :
  Forall (fun e => e <> "..") ys ->
  cleanElems rooted out ys = rev out ++ filter (fun e => keptElem e = true) ys.
Proof.
  intros Hys. revert out. induction Hys as [|e ys He _ IH]; intros out.
  - cbn. by rewrite app_nil_r.
  - cbn [cleanElems].
    destruct (bool_decide (e = "") || bool_decide (e = ".")) eqn:Hdrop.
    + rewrite filter_cons_False by (unfold keptElem; rewrite Hdrop; done). apply IH.
    + rewrite (bool_decide_eq_false_2 _ He).
      rewrite filter_cons_True by (unfold keptElem; rewrite Hdrop; done).
      rewrite IH. cbn. by rewrite <- app_assoc.
Qed.

Lemma Clean_render path :
  path <> "" -> Clean path = renderPath (isRooted path) (cleanedElems path).
Proof. by destruct path. Qed.

(** When addSyncFolder accepts the clonePath of the first project, the
    folder it enters lies below the source root: written as [Clean]
    writes a path, its elements are those of the cleaned source root
    followed by the elements of the clonePath that are neither empty nor
    a dot, none of which is [..]. *)
Theorem accepted_clonePath_stays_under_root sourceVolumePath project rest folder :
  sourceVolumePath <> "" ->
  Project.ClonePath project <> "" ->
  syncFolder sourceVolumePath (project :: rest) = OK folder ->
  let below :=
    filter (fun e => keptElem e = true) (splitPath "" (Project.ClonePath project)) in
  Clean sourceVolumePath
    = renderPath (isRooted sourceVolumePath) (cleanedElems sourceVolumePath) /\
  folder
    = renderPath (isRooted sourceVolumePath) (cleanedElems sourceVolumePath ++ below) /\
  Forall (fun e => e <> ".." /\ e <> "." /\ e <> "") below.
Proof.
  intros Hroot Hcp Hfolder below. split; [by apply Clean_render|].
  unfold syncFolder in Hfolder. rewrite (bool_decide_eq_true_2 _ Hcp) in Hfolder.
  destruct (HasPrefix _ _); [discriminate|].
  destruct (Contains (Project.ClonePath project) "..") eqn:Hno; [discriminate|].
  injection Hfolder as <-. apply splitPath_no_dotdot in Hno. split.
  - unfold ToSlash. rewrite (bool_decide_eq_false_2 _ Hroot).
    change (Clean (sourceVolumePath +:+ String Separator (Project.ClonePath project))
            = renderPath (isRooted sourceVolumePath) (cleanedElems sourceVolumePath ++ below)).
    rewrite Clean_render by (by destruct sourceVolumePath).
    assert (Hrooted :
      isRooted (sourceVolumePath +:+ String Separator (Project.ClonePath project))
      = isRooted sourceVolumePath) by (by destruct sourceVolumePath).
    unfold cleanedElems.
    rewrite Hrooted, splitPath_append, cleanElems_app, (cleanElems_kept _ _ _ Hno).
    by rewrite rev_involutive.
  - apply Forall_forall. intros e [Hkept He]%list_elem_of_filter.
    split; [by eapply (proj1 (Forall_forall _ _) Hno)|].
    unfold keptElem in Hkept. apply negb_true_iff, orb_false_iff in Hkept as [H1 H2].
    split; by eapply bool_decide_eq_false.
Qed.
End PathProperties.

(** ** More of the parser *)
Section EntryPoints.
Context {loader : ContextLoader} {decoder : DocumentDecoder} {api : Overriding}.

(** The failures of parseDevfile that come before flattening return the
    object built so far with the error and fetch nothing, in both modes:
    a validation error and an error of the data constructor unchanged, a
    decoding error behind the prefix [failed to decode devfile content].
    ParseFromData reports content it cannot take behind the prefix
    [failed to set devfile content from bytes]. *)
Theorem errors_before_flattening fuel d flattenedDevfile :
  (forall err,
     Validate (Ctx d) = Some err ->
     parseDevfile fuel d flattenedDevfile = Returns (d, Some err) []) /\
  (forall data err,
     Validate (Ctx d) = None ->
     NewDevfileData (GetApiVersion (Ctx d)) = (data, Some err) ->
     parseDevfile fuel d flattenedDevfile = Returns (withData d data, Some err) []) /\
  (forall created data cause,
     Validate (Ctx d) = None ->
     NewDevfileData (GetApiVersion (Ctx d)) = (created, None) ->
     Unmarshal (GetDevfileContent (Ctx d)) created = (data, Some cause) ->
     parseDevfile fuel d flattenedDevfile
       = Returns (withData d data,
                  Some ("failed to decode devfile content: " +:+ cause)) []) /\
  (forall bytes ctx cause,
     SetDevfileContentFromBytes bytes zeroCtx = (ctx, Some cause) ->
     ParseFromData fuel bytes
       = Returns ({| Ctx := ctx; Data := None |},
                  Some ("failed to set devfile content from bytes: " +:+ cause)) []).
Proof.
  unfold parseDevfile, parseDevfile_with, decode. repeat split.
  - intros err Hv. by rewrite Hv.
  - intros data err Hv Hnew. by rewrite Hv, Hnew.
  - intros created data cause Hv Hnew Hdec. rewrite Hv, Hnew. cbn. by rewrite Hdec.
  - intros bytes ctx cause Hset. unfold ParseFromData. cbn. by rewrite Hset.
Qed.

(** Parse is ParseRawDevfile followed by flattening: an error of the raw
    parse is the result of Parse, nothing fetched; a document the raw
    parse returns is handed to parseParentAndPlugin, whose document is
    returned on success and replaced by the zero object on an error. *)
Theorem Parse_is_raw_then_flatten fuel path :
  match ParseRawDevfile fuel path with
  | Returns (d, Some err) _ => Parse fuel path = Returns (d, Some err) []
  | Returns (d, None) _ =>
      Parse fuel path
      = match parseParentAndPlugin fuel d with
        | Returns (flattened, None) log => Returns (flattened, None) log
        | Returns (_, Some err) log => Returns (zeroDevfileObj, Some err) log
        | Panics => Panics
        | OutOfFuel => OutOfFuel
        end
  | Panics | OutOfFuel => False
  end.
Proof.
  unfold ParseRawDevfile, Parse, parseDevfile, parseDevfile_with, parseParentAndPlugin.
  cbv zeta. destruct (Populate _) as [ctx [e|]]; [done|].
  destruct (decode _) as [d1 [e|]]; [done|]. cbn.
  destruct (parseParentAndPlugin_with _ d1) as [[d2 [e|]] log| |]; cbn;
    by rewrite ?app_nil_r.
Qed.

Lemma parseDevfile_success fuel d d' log :
  parseDevfile fuel d true = Returns (d', None) log ->
  exists data,
    Data d' = Some data /\
    DevfileData.Parent data = None /\
    (OverrideKeepsOrdinary -> MergeExpandsPlugins ->
     ordinaryContent (DevfileData.Workspace data)).
Proof.
  intros H. pose proof H as Hflat.
  unfold parseDevfile, parseDevfile_with in H.
  destruct (decode d) as [d1 [e|]]; [discriminate|].
  apply bind_Returns in H as ([d2 err] & l1 & l2 & Hp & H & _).
  destruct err as [e|]; [discriminate|]. injection H as <- _.
  destruct (parseParentAndPlugin_with_parent_cleared _ _ _ _ Hp) as (data & Hdata & Hnone).
  exists data. split; [done|]. split; [done|]. intros Ho Hm.
  eapply parseDevfile_with_flattened in Hflat as (data' & Hdata' & _ & Hord); eauto.
  - rewrite Hdata in Hdata'. by injection Hdata' as <-.
  - intros url pd l. by apply ParseFromURL_flattened.
Qed.

(** Whatever a flattening entry point returns without error is a
    flattened document: Parse, ParseFromURL and ParseFromData return an
    object whose data is there and has no parent, and, for override and
    merge functions that meet their contracts, no plugin component;
    ParseFromURL has fetched its own URI first. *)
Theorem entry_points_return_flattened fuel d log :
  let isFlattened :=
    exists data,
      Data d = Some data /\
      DevfileData.Parent data = None /\
      (OverrideKeepsOrdinary -> MergeExpandsPlugins ->
       ordinaryContent (DevfileData.Workspace data)) in
  (forall path, Parse fuel path = Returns (d, None) log -> isFlattened) /\
  (forall url,
     ParseFromURL fuel url = Returns (d, None) log ->
     isFlattened /\ exists rest, log = url :: rest) /\
  (forall bytes, ParseFromData fuel bytes = Returns (d, None) log -> isFlattened).
Proof.
  cbv zeta. split; [|split].
  - intros path. unfold Parse. cbv zeta. destruct (Populate _) as [ctx [e|]]; [done|].
    apply parseDevfile_success.
  - intros url H. split; [|by destruct (ParseFromURL_success _ _ _ _ H) as [_ Hlog]].
    destruct fuel as [|fuel']; [done|]. rewrite ParseFromURL_S in H. cbv zeta in H.
    destruct (PopulateFromURL _) as [ctx [e|]]; [done|].
    destruct (parseDevfile_with _ _ _) as [[d2 e2] l2| |] eqn:Hp; try done.
    injection H as -> -> <-. by apply parseDevfile_success in Hp.
  - intros bytes. unfold ParseFromData. cbv zeta.
    destruct (SetDevfileContentFromBytes _ _) as [ctx [e|]]; [done|].
    destruct (PopulateFromRaw _) as [ctx' [e|]]; [done|].
    apply parseDevfile_success.
Qed.
End EntryPoints.

Section ResolverEdges.
Context {loader : ContextLoader} {decoder : DocumentDecoder} {api : Overriding}.

(** parseParentAndPlugin and a component list without resolvable plugin. *)
Lemma flattenPlugins_none rec components plugins :
  Forall (fun component => pluginOf component = None) components ->
  flattenPlugins rec components plugins = Returns (plugins, None) [].
Proof.
  induction 1 as [|component components Hc _ IH]; [done|]. cbn. by rewrite Hc.
Qed.

(** A parent reference without URI (one that names the parent by id, say)
    is not resolved: nothing is fetched for it, its overrides are not
    applied, and flattening goes as for the document without parent, up
    to the document handed back with an error. *)
Theorem parent_without_uri_is_dropped fuel d data parent :
  Data d = Some data ->
  DevfileData.Parent data = Some parent ->
  Parent.Uri parent = "" ->
  parseParentAndPlugin fuel d
  = match parseParentAndPlugin fuel (withData d (Some (DevfileData.SetParent None data))) with
    | Returns (flattened, None) log => Returns (flattened, None) log
    | Returns (_, Some err) log => Returns (d, Some err) log
    | Panics => Panics
    | OutOfFuel => OutOfFuel
    end.
Proof.
  intros Hd Hp Huri. unfold parseParentAndPlugin.
  rewrite (parseParentAndPlugin_with_eq _ _ _ Hd).
  rewrite (parseParentAndPlugin_with_eq _ (withData d (Some (DevfileData.SetParent None data)))
             (DevfileData.SetParent None data) eq_refl).
  rewrite Hp. cbn [DevfileData.SetParent DevfileData.Parent DevfileData.Workspace].
  unfold flattenParent. rewrite Huri.
  rewrite (bool_decide_eq_false_2 ("" <> "")) by (by intros H). rewrite andb_false_r.
  unfold ret.
  destruct (flattenPlugins _ _ _) as [[plugins [e|]] l2| |]; try done.
  by destruct (MergeDevWorkspaceTemplateSpec _ _ _).
Qed.

(** Components that are no plugin, or a plugin equal to the zero value,
    are passed over: on a document without parent made of such
    components nothing is fetched and nothing panics, whatever the fuel,
    and the outcome is that of merging the local content with an empty
    parent layer and no plugin layer. *)
Theorem default_plugins_are_skipped fuel d data :
  Data d = Some data ->
  DevfileData.Parent data = None ->
  Forall (fun component =>
            Component.Plugin component = None \/
            Component.Plugin component = Some PluginComponent.zero)
    (Content.Components (DevfileData.Workspace data)) ->
  parseParentAndPlugin fuel d
  = match MergeDevWorkspaceTemplateSpec (DevfileData.Workspace data) Content.zero [] with
    | OK merged =>
        Returns (withData d
                   (Some (DevfileData.SetParent None
                            (DevfileData.SetDevfileWorkspace merged data))), None) []
    | Fail err => Returns (d, Some err) []
    end.
Proof.
  intros Hd Hp Hcs. unfold parseParentAndPlugin.
  rewrite (parseParentAndPlugin_with_eq _ _ _ Hd), Hp. unfold flattenParent, ret.
  rewrite flattenPlugins_none; [done|].
  eapply Forall_impl; [exact Hcs|]. intros component [Hc|Hc]; unfold pluginOf; rewrite Hc.
  - done.
  - by rewrite bool_decide_eq_false_2 by (by intros H).
Qed.

Lemma flattenPlugins_error_prefix rec components more plugins collected err log :
  flattenPlugins rec components plugins = Returns (collected, Some err) log ->
  flattenPlugins rec (components ++ more) plugins = Returns (collected, Some err) log.
Proof.
  revert plugins log. induction components as [|component components IH];
    intros plugins log H; [discriminate|].
  cbn in *. destruct (pluginOf component) as [plugin|]; [|by apply IH].
  apply bind_Returns in H as ([result perr] & l1 & l2 & Hp & H & ->).
  apply bind_Returns. exists (result, perr), l1, l2. split; [done|]. split; [|done].
  destruct perr as [e|]; [done|]. by apply IH.
Qed.

(** The resolution stops at the first failure.  When the parent fails,
    no component is looked at: the error is returned whatever the
    components are, with the fetches of the parent alone.  When a plugin
    fails, the components after it are not looked at: with more
    components appended to the document the error and the fetches are
    the same. *)
Theorem resolution_stops_at_first_failure fuel d data :
  Data d = Some data ->
  (forall flattenedParent err log,
     flattenParent (ParseFromURL fuel) (DevfileData.Parent data)
       = Returns (flattenedParent, Some err) log ->
     parseParentAndPlugin fuel d = Returns (d, Some err) log) /\
  (forall flattenedParent l1 collected err l2 more,
     flattenParent (ParseFromURL fuel) (DevfileData.Parent data)
       = Returns (flattenedParent, None) l1 ->
     flattenPlugins (ParseFromURL fuel)
       (Content.Components (DevfileData.Workspace data)) []
       = Returns (collected, Some err) l2 ->
     let extended :=
       withData d
         (Some (DevfileData.SetDevfileWorkspace
                  {| Content.Components :=
                       Content.Components (DevfileData.Workspace data) ++ more;
                     Content.Commands := Content.Commands (DevfileData.Workspace data);
                     Content.Projects := Content.Projects (DevfileData.Workspace data) |}
                  data)) in
     parseParentAndPlugin fuel d = Returns (d, Some err) (l1 ++ l2) /\
     parseParentAndPlugin fuel extended = Returns (extended, Some err) (l1 ++ l2)).
Proof.
  intros Hd. split.
  - intros flattenedParent err log Hp. unfold parseParentAndPlugin.
    by rewrite (parseParentAndPlugin_with_eq _ _ _ Hd), Hp.
  - intros flattenedParent l1 collected err l2 more Hp Hl extended.
    unfold parseParentAndPlugin. split.
    + by rewrite (parseParentAndPlugin_with_eq _ _ _ Hd), Hp, Hl.
    + rewrite (parseParentAndPlugin_with_eq _ extended _ eq_refl). cbn.
      by rewrite Hp, (flattenPlugins_error_prefix _ _ more _ _ _ _ Hl).
Qed.

(** Flattening leaves the loading context and the schema version of the
    document alone, whether it succeeds or returns an error. *)
Theorem flattening_keeps_context_and_version fuel d d' err log :
  parseParentAndPlugin fuel d = Returns (d', err) log ->
  Ctx d' = Ctx d /\
  exists data data',
    Data d = Some data /\ Data d' = Some data' /\
    DevfileData.SchemaVersion data' = DevfileData.SchemaVersion data.
Proof.
  intros H. apply parseParentAndPlugin_with_inv in H
    as (data & flattenedParent & perr & l1 & Hd & Hp & H).
  assert (Hsame : d' = d -> Ctx d' = Ctx d /\
            exists data0 data', Data d = Some data0 /\ Data d' = Some data' /\
              DevfileData.SchemaVersion data' = DevfileData.SchemaVersion data0).
  { intros ->. split; [done|]. by exists data, data. }
  destruct perr as [e|]; [by destruct H as (_ & Heq & _); apply Hsame|].
  destruct H as (plugins & lerr & l2 & Hl & -> & H).
  destruct lerr as [e|]; [by destruct H as (_ & Heq); apply Hsame|].
  destruct (MergeDevWorkspaceTemplateSpec _ _ _) as [merged|e].
  - destruct H as [_ ->]. split; [done|]. by eexists data, _.
  - by destruct H as (_ & Heq); apply Hsame.
Qed.

(** Flattening twice is flattening once: a document that comes out of a
    successful flattening is returned as it is by a second one, which
    fetches nothing, for override and merge functions that meet their
    contracts. *)
Theorem flattening_twice fuel fuel' d d' log :
  OverrideKeepsOrdinary -> MergeExpandsPlugins -> MergeNeutral ->
  parseParentAndPlugin fuel d = Returns (d', None) log ->
  parseParentAndPlugin fuel' d' = Returns (d', None) [].
Proof.
  intros Ho Hm Hn H.
  eapply parseParentAndPlugin_with_flattened in H as (data & Hdata & Hnone & Hord); eauto.
  - unfold parseParentAndPlugin.
    rewrite (parseParentAndPlugin_with_eq _ _ _ Hdata), Hnone. unfold flattenParent, ret.
    rewrite (flattenPlugins_ordinary _ _ _ Hord), (Hn _ Hord). cbn.
    rewrite <- (withData_same d') at 2. rewrite Hdata. do 4 f_equal.
    destruct data as [v p w]. cbn in *. by subst.
  - intros url pd l. by apply ParseFromURL_flattened.
Qed.
End ResolverEdges.

(** ** The further properties at work *)
Lemma addSyncFolder_frame_witness :
  Generator.addSyncFolder "PROJECT_SOURCE" Example.holder "/projects"
    [Example.project "first" "src"; Example.project "second" "/abs/../path"]
  = Generator.addSyncFolder "PROJECT_SOURCE" Example.holder "/projects"
      [Example.project "first" "src"].
Proof.
  exact (proj2 (proj2 (proj2 (proj2
           (addSyncFolder_frame "PROJECT_SOURCE" Example.holder "/projects"
              [Example.project "first" "src"; Example.project "second" "/abs/../path"]))))).
Defined.

Lemma convertEnvs_lossless_witness :
  [{| Generator.DevfileEnvVar.Name := "A"; Generator.DevfileEnvVar.Value := "1" |};
   {| Generator.DevfileEnvVar.Name := "B"; Generator.DevfileEnvVar.Value := "" |}]
  = [{| Generator.DevfileEnvVar.Name := "A"; Generator.DevfileEnvVar.Value := "1" |};
     {| Generator.DevfileEnvVar.Name := "B"; Generator.DevfileEnvVar.Value := "" |}].
Proof.
  apply (proj2 (proj2 (convertEnvs_lossless _))). reflexivity.
Defined.

Lemma getResourceReqs_limits_witness :
  Generator.Limits string
    (Generator.getResourceReqs string Example.parseQuantity (Example.memoryLimited ""))
  = None /\
  (exists limits,
     Generator.Limits string
       (Generator.getResourceReqs string Example.parseQuantity (Example.memoryLimited "lots"))
     = Some limits /\
     limits !! Generator.ResourceMemory = None) /\
  (exists limits,
     Generator.Limits string
       (Generator.getResourceReqs string Example.parseQuantity (Example.memoryLimited "512Mi"))
     = Some limits /\
     limits !! Generator.ResourceMemory = Some "512Mi").
Proof.
  split; [reflexivity|]. split.
  - pose proof (getResourceReqs_limits string Example.parseQuantity
                  (Example.memoryLimited "lots")) as [_ H].
    cbv zeta in H.
    destruct (Generator.Limits string _) as [limits|] eqn:Hl; [|discriminate Hl].
    destruct H as (container & [= <-] & _ & _ & H). by exists limits.
  - pose proof (getResourceReqs_limits string Example.parseQuantity
                  (Example.memoryLimited "512Mi")) as [_ H].
    cbv zeta in H.
    destruct (Generator.Limits string _) as [limits|] eqn:Hl; [|discriminate Hl].
    destruct H as (container & [= <-] & _ & _ & H). by exists limits.
Defined.

Lemma service_ports_follow_endpoints_witness :
  map Generator.ServicePort.Port
    (Generator.ServiceSpec.Ports
       (Generator.getServiceSpec
          {| Generator.serviceSpecParams.SelectorLabels := {["app" := "demo"]};
             Generator.serviceSpecParams.ContainerPorts :=
               Generator.convertPorts id (fun s _ => s) id id
                 [{| Generator.Endpoint.Name := "http";
                     Generator.Endpoint.TargetPort := 8080 |};
                  {| Generator.Endpoint.Name := "debug";
                     Generator.Endpoint.TargetPort := 5858 |}] |}))
  = [8080; 5858]%Z.
Proof.
  apply (proj2 (proj2 (proj2 (proj2
           (service_ports_follow_endpoints id (fun s _ => s) id id {["app" := "demo"]}
              [{| Generator.Endpoint.Name := "http";
                  Generator.Endpoint.TargetPort := 8080 |};
               {| Generator.Endpoint.Name := "debug";
                  Generator.Endpoint.TargetPort := 5858 |}]))))).
  repeat constructor; cbn; lia.
Defined.

Lemma accepted_clonePath_stays_under_root_witness :
  Generator.Clean "/projects" = "/projects" /\
  Generator.Join ["/projects"; "src/./app"] = "/projects/src/app".
Proof.
  destruct (accepted_clonePath_stays_under_root "/projects"
              (Example.project "myproj" "src/./app") []
              (Generator.Join ["/projects"; "src/./app"]))
    as (Hroot & Hfolder & _).
  - discriminate.
  - discriminate.
  - reflexivity.
  - split; [exact Hroot|exact Hfolder].
Defined.

Lemma errors_before_flattening_witness :
  @parseDevfile Example.loader Example.decoder SpecApi.api 3 (Example.obj "nowhere" None) true
  = Returns (Example.obj "nowhere" (Some (Example.document None [])),
             Some "failed to decode devfile content: unexpected end of JSON input") [].
Proof.
  eapply (proj1 (proj2 (proj2
            (@errors_before_flattening Example.loader Example.decoder SpecApi.api
               3 (Example.obj "nowhere" None) true)))); reflexivity.
Defined.

Lemma entry_points_return_flattened_witness :
  exists d log,
    Example.parse 3 "R" = Returns (d, None) log /\
    (exists data, Data d = Some data /\ DevfileData.Parent data = None) /\
    exists rest, log = "R" :: rest.
Proof.
  eexists _, _. split; [reflexivity|].
  destruct (proj1 (proj2 (@entry_points_return_flattened
                            Example.loader Example.decoder SpecApi.api 3 _ _))
              "R" eq_refl) as [(data & Hdata & Hnone & _) Hlog].
  split; [by exists data|exact Hlog].
Defined.

Lemma parent_without_uri_is_dropped_witness :
  exists flattened,
    Example.flatten 0 Example.docParentById = Returns (flattened, None) [] /\
    Data flattened = Some (Example.document None [Example.container "c" "img-c"]).
Proof.
  eexists. split.
  - unfold Example.flatten.
    rewrite (@parent_without_uri_is_dropped Example.loader Example.decoder SpecApi.api
               0 Example.docParentById _ _ eq_refl eq_refl eq_refl).
    reflexivity.
  - reflexivity.
Defined.

Lemma default_plugins_are_skipped_witness :
  exists flattened,
    Example.flatten 0 Example.docDefaultPlugin = Returns (flattened, None) [] /\
    Data flattened = Some (Example.document None [Example.container "c" "img-c"]).
Proof.
  eexists. split.
  - unfold Example.flatten.
    rewrite (@default_plugins_are_skipped Example.loader Example.decoder SpecApi.api
               0 Example.docDefaultPlugin _ eq_refl eq_refl).
    + reflexivity.
    + constructor; [by left|]. constructor; [by right|constructor].
  - reflexivity.
Defined.

Lemma resolution_stops_at_first_failure_witness :
  Example.flatten 1 Example.docOrphan
    = Returns (Example.docOrphan, Some "failed to retrieve missing") ["missing"] /\
  Example.flatten 1 Example.docBadPlugin
    = Returns (Example.docBadPlugin, Some "failed to retrieve missing") ([] ++ ["missing"]).
Proof.
  split.
  - eapply (proj1 (@resolution_stops_at_first_failure Example.loader Example.decoder
                     SpecApi.api 1 Example.docOrphan _ eq_refl)).
    reflexivity.
  - eapply (proj2 (@resolution_stops_at_first_failure Example.loader Example.decoder
                     SpecApi.api 1 Example.docBadPlugin _ eq_refl)
              _ _ _ _ _ [] eq_refl).
    reflexivity.
Defined.

Lemma flattening_keeps_context_and_version_witness :
  exists d' log,
    Example.flatten 2 Example.docR = Returns (d', None) log /\
    Ctx d' = Ctx Example.docR /\
    exists data data',
      Data Example.docR = Some data /\ Data d' = Some data' /\
      DevfileData.SchemaVersion data' = DevfileData.SchemaVersion data.
Proof.
  eexists _, _. split; [reflexivity|].
  eapply (@flattening_keeps_context_and_version Example.loader Example.decoder SpecApi.api
            2 Example.docR).
  reflexivity.
Defined.

Lemma flattening_twice_witness :
  exists d' log,
    Example.flatten 2 Example.docR = Returns (d', None) log /\
    Example.flatten 0 d' = Returns (d', None) [].
Proof.
  eexists _, _. split; [reflexivity|].
  eapply (@flattening_twice Example.loader Example.decoder SpecApi.api 2 0 Example.docR).
  - apply SpecApi_override_keeps_ordinary.
  - apply SpecApi_merge_expands_plugins.
  - apply SpecApi_merge_neutral.
  - reflexivity.
Defined.
